(** * The project/contact service of [main.py]: serialisation, seeding,
      listing and creation, over a document store.

    Documents are Python dicts with string keys; they are modelled as
    [gmap string value].  Code that raises returns a [result]; code that
    talks to the store or reads the clock runs in a small state monad over
    a [world]. *)

From Stdlib Require Import ZArith NArith Ascii String List Permutation Sorted.
From stdpp Require Import gmap strings list fin_maps pretty sorting.

Local Open Scope string_scope.

(** ** Python values held in a document *)

(** [datetime]: the fields of a Python [datetime]; [tz_utc] tells an aware
    value in UTC (what [datetime.now(timezone.utc)] returns) from a naive
    one. *)
Record datetime := mk_datetime {
  dt_year : N;
  dt_month : N;
  dt_day : N;
  dt_hour : N;
  dt_minute : N;
  dt_second : N;
  dt_microsecond : N;
  tz_utc : bool
}.

(** A [bson.ObjectId] is twelve bytes, kept here as the number they spell. *)
Definition ObjectId := N.

(** [VList]: a list of strings, as the [tags] of a project. *)
Inductive value :=
| VNone
| VBool (b : bool)
| VInt (n : Z)
| VStr (s : string)
| VList (l : list string)
| VDatetime (t : datetime)
| VObjectId (o : ObjectId).

Abbreviation dict := (gmap string value).

(** The exceptions this code can meet; all are subclasses of [Exception]. *)
Inductive exn :=
| TypeError
| ValueError
| InvalidId
| DatabaseError.

Inductive result (A : Type) :=
| Ok (a : A)
| Raise (e : exn).
Arguments Ok {A} a.
Arguments Raise {A} e.

Definition rbind {A B} (r : result A) (k : A -> result B) : result B :=
  match r with
  | Ok a => k a
  | Raise e => Raise e
  end.

(** Evaluate [f] on the elements from left to right; the first exception
    ends the evaluation. *)
Fixpoint rmap {A B} (f : A -> result B) (l : list A) : result (list B) :=
  match l with
  | [] => Ok []
  | x :: l' => rbind (f x) (fun y => rbind (rmap f l') (fun ys => Ok (y :: ys)))
  end.

Definition is_ok {A} (r : result A) : bool :=
  match r with Ok _ => true | Raise _ => false end.

(** ** Printing numbers *)

Definition digit_char (d : N) : ascii := ascii_of_N (48 + d).

(** The [width] low decimal digits of [n], zero padded. *)
Fixpoint pad_dec (width : nat) (n : N) : string :=
  match width with
  | O => ""
  | S w => pad_dec w (n / 10) ++ String (digit_char (n mod 10)) ""
  end.

Definition hex_char (d : N) : ascii :=
  if (d <? 10)%N then ascii_of_N (48 + d) else ascii_of_N (87 + d).

(** The [width] low hexadecimal digits of [n], lower case, zero padded. *)
Fixpoint pad_hex (width : nat) (n : N) : string :=
  match width with
  | O => ""
  | S w => pad_hex w (n / 16) ++ String (hex_char (n mod 16)) ""
  end.

(** [str(ObjectId)]: the twelve bytes as 24 hexadecimal digits. *)
Definition str_ObjectId (o : ObjectId) : string := pad_hex 24 o.

Definition hex_value (c : ascii) : option N :=
  let n := N_of_ascii c in
  if ((48 <=? n) && (n <=? 57))%N then Some (n - 48)%N
  else if ((97 <=? n) && (n <=? 102))%N then Some (n - 87)%N
  else if ((65 <=? n) && (n <=? 70))%N then Some (n - 55)%N
  else None.

Fixpoint parse_hex (acc : N) (s : string) : option N :=
  match s with
  | EmptyString => Some acc
  | String c s' =>
      match hex_value c with
      | Some d => parse_hex (16 * acc + d)%N s'
      | None => None
      end
  end.

(** [ObjectId(s)] for a string: 24 hexadecimal digits, else [InvalidId].
    (The blanks that [bytes.fromhex] would skip never occur in what
    [str(ObjectId)] prints and are refused here.) *)
Definition ObjectId_of_str (s : string) : result ObjectId :=
  if Nat.eqb (String.length s) 24 then
    match parse_hex 0%N s with
    | Some o => Ok o
    | None => Raise InvalidId
    end
  else Raise InvalidId.

(** [datetime.isoformat(sep)]: [YYYY-MM-DD], [sep], [HH:MM:SS], then
    [.ffffff] when the microsecond is not zero, then [+00:00] on an aware
    UTC value. *)
Definition isoformat_sep (sep : string) (t : datetime) : string :=
  pad_dec 4 (dt_year t) ++ "-" ++ pad_dec 2 (dt_month t) ++ "-" ++
  pad_dec 2 (dt_day t) ++ sep ++ pad_dec 2 (dt_hour t) ++ ":" ++
  pad_dec 2 (dt_minute t) ++ ":" ++ pad_dec 2 (dt_second t) ++
  (if (dt_microsecond t =? 0)%N then "" else "." ++ pad_dec 6 (dt_microsecond t)) ++
  (if tz_utc t then "+00:00" else "").

Definition isoformat (t : datetime) : string := isoformat_sep "T" t.

Fixpoint contains_char (c : ascii) (s : string) : bool :=
  match s with
  | EmptyString => false
  | String c' s' => if Ascii.eqb c c' then true else contains_char c s'
  end.

Definition squote : ascii := ascii_of_N 39.
Definition dquote : ascii := ascii_of_N 34.
Definition backslash : ascii := ascii_of_N 92.

Fixpoint repr_chars (quote : ascii) (s : string) : string :=
  match s with
  | EmptyString => ""
  | String c s' =>
      let n := N_of_ascii c in
      (if Ascii.eqb c quote || Ascii.eqb c backslash then String backslash (String c "")
       else if (n =? 9)%N then String backslash "t"
       else if (n =? 10)%N then String backslash "n"
       else if (n =? 13)%N then String backslash "r"
       else if ((n <? 32) || (n =? 127))%N then String backslash ("x" ++ pad_hex 2 n)
       else String c "") ++ repr_chars quote s'
  end.

(** [repr(s)] of an ASCII string: single quotes, unless the string has a
    single quote and no double quote. *)
Definition py_repr_str (s : string) : string :=
  let quote :=
    if contains_char squote s && negb (contains_char dquote s) then dquote else squote in
  String quote (repr_chars quote s) ++ String quote "".

(** [str(v)]. *)
Definition py_str (v : value) : string :=
  match v with
  | VNone => "None"
  | VBool true => "True"
  | VBool false => "False"
  | VInt n => pretty n
  | VStr s => s
  | VList l => "[" ++ String.concat ", " (map py_repr_str l) ++ "]"
  | VDatetime t => isoformat_sep " " t
  | VObjectId o => str_ObjectId o
  end.

(** ** Python strings *)

(** A Python [str] is a sequence of code points; a [string] here holds its
    UTF-8 encoding.  [utf8_decode] gives the code points back, and [None]
    for bytes that encode no string. *)
Definition is_continuation (b : ascii) : bool :=
  let n := N_of_ascii b in ((128 <=? n) && (n <? 192))%N.

Definition continuation_bits (b : ascii) : N := (N_of_ascii b - 128)%N.

Fixpoint utf8_decode (s : string) : option (list N) :=
  match s with
  | EmptyString => Some []
  | String b s1 =>
      let n := N_of_ascii b in
      if (n <? 128)%N then cons n <$> utf8_decode s1
      else if (n <? 194)%N then None
      else if (n <? 224)%N then
        match s1 with
        | String c1 s2 =>
            if is_continuation c1
            then cons ((n - 192) * 64 + continuation_bits c1)%N <$> utf8_decode s2
            else None
        | EmptyString => None
        end
      else if (n <? 240)%N then
        match s1 with
        | String c1 (String c2 s3) =>
            let ch := ((n - 224) * 4096 + continuation_bits c1 * 64
                       + continuation_bits c2)%N in
            if is_continuation c1 && is_continuation c2 && (2048 <=? ch)%N
               && negb ((55296 <=? ch) && (ch <=? 57343))%N
            then cons ch <$> utf8_decode s3
            else None
        | _ => None
        end
      else if (n <? 245)%N then
        match s1 with
        | String c1 (String c2 (String c3 s4)) =>
            let ch := ((n - 240) * 262144 + continuation_bits c1 * 4096
                       + continuation_bits c2 * 64 + continuation_bits c3)%N in
            if is_continuation c1 && is_continuation c2 && is_continuation c3
               && (65536 <=? ch)%N && (ch <=? 1114111)%N
            then cons ch <$> utf8_decode s4
            else None
        | _ => None
        end
      else None
  end.

(** The number of characters of the string, [len(s)]: every byte but the
    continuation bytes starts one. *)
Fixpoint utf8_length (s : string) : nat :=
  match s with
  | EmptyString => 0
  | String b s' => if is_continuation b then utf8_length s' else Datatypes.S (utf8_length s')
  end.

(** The first [n] characters of the string, [s[:n]]. *)
Fixpoint utf8_take (n : nat) (s : string) : string :=
  match s with
  | EmptyString => EmptyString
  | String b s' =>
      if is_continuation b then String b (utf8_take n s')
      else match n with
           | O => EmptyString
           | Datatypes.S n' => String b (utf8_take n' s')
           end
  end.

(** ** [int(x)] *)

(** The white space that [int] skips around the number: the ASCII tab, line
    feed, vertical tab, form feed, carriage return and space, and the
    Unicode white space above them. *)
Definition blank_chars : list N :=
  [
   0x9; 0xA; 0xB; 0xC; 0xD; 0x20; 0x85; 0xA0;
   0x1680; 0x2000; 0x2001; 0x2002; 0x2003; 0x2004; 0x2005; 0x2006;
   0x2007; 0x2008; 0x2009; 0x200A; 0x2028; 0x2029; 0x202F; 0x205F;
   0x3000
  ]%N.

Definition is_space (ch : N) : bool := existsb (N.eqb ch) blank_chars.

(** The code points of the digit zero in every script that has decimal
    digits (Unicode 14.0, the table of CPython 3.11); the nine code points
    after each are the digits one to nine. *)
Definition decimal_zeros : list N :=
  [
   0x30; 0x660; 0x6F0; 0x7C0; 0x966; 0x9E6; 0xA66; 0xAE6;
   0xB66; 0xBE6; 0xC66; 0xCE6; 0xD66; 0xDE6; 0xE50; 0xED0;
   0xF20; 0x1040; 0x1090; 0x17E0; 0x1810; 0x1946; 0x19D0; 0x1A80;
   0x1A90; 0x1B50; 0x1BB0; 0x1C40; 0x1C50; 0xA620; 0xA8D0; 0xA900;
   0xA9D0; 0xA9F0; 0xAA50; 0xABF0; 0xFF10; 0x104A0; 0x10D30; 0x11066;
   0x110F0; 0x11136; 0x111D0; 0x112F0; 0x11450; 0x114D0; 0x11650; 0x116C0;
   0x11730; 0x118E0; 0x11950; 0x11C50; 0x11D50; 0x11DA0; 0x16A60; 0x16AC0;
   0x16B50; 0x1D7CE; 0x1D7D8; 0x1D7E2; 0x1D7EC; 0x1D7F6; 0x1E140; 0x1E2F0;
   0x1E950; 0x1FBF0
  ]%N.

Definition digit_value (ch : N) : option N :=
  (fun z => ch - z)%N <$> List.find (fun z => (z <=? ch) && (ch <? z + 10))%N decimal_zeros.

Definition is_underscore (ch : N) : bool := (ch =? 95)%N.

Fixpoint skip_space (u : list N) : list N :=
  match u with
  | ch :: u' => if is_space ch then skip_space u' else u
  | [] => []
  end.

(** Scan decimal digits with single underscores between them.  [prev_us]:
    the previous character was an underscore.  Returns the number read, how
    many digits it had, and the rest of the string. *)
Fixpoint scan_digits (u : list N) (prev_us : bool) (acc : N) (digits : nat)
  : option (N * nat * list N) :=
  match u with
  | ch :: u' =>
      match digit_value ch with
      | Some d => scan_digits u' false (10 * acc + d)%N (Datatypes.S digits)
      | None =>
          if is_underscore ch then
            if prev_us then None else scan_digits u' true acc digits
          else if prev_us then None else Some (acc, digits, u)
      end
  | [] => if prev_us then None else Some (acc, digits, u)
  end.

(** CPython's default limit on the digits of a string given to [int]. *)
Definition int_max_str_digits : nat := 4300.

Definition parse_unsigned (u : list N) : option N :=
  match u with
  | ch :: _ =>
      if is_underscore ch then None
      else
        match scan_digits u false 0%N 0 with
        | Some (n, digits, rest) =>
            if Nat.eqb digits 0 then None
            else if Nat.ltb int_max_str_digits digits then None
            else match skip_space rest with
                 | [] => Some n
                 | _ => None
                 end
        | None => None
        end
  | [] => None
  end.

(** [int] on the code points of a string, base ten: white space, an
    optional sign, the digits, white space. *)
Definition int_of_codepoints (u : list N) : option Z :=
  match skip_space u with
  | ch :: u' =>
      if (ch =? 43)%N then Z.of_N <$> parse_unsigned u'
      else if (ch =? 45)%N then (fun n => - Z.of_N n)%Z <$> parse_unsigned u'
      else Z.of_N <$> parse_unsigned (ch :: u')
  | [] => None
  end.

(** [int(s)] for a string. *)
Definition int_of_str (s : string) : option Z :=
  match utf8_decode s with
  | Some u => int_of_codepoints u
  | None => None
  end.

(** *** What an integer literal is

    Stated apart from the parser: the strings that [int] reads, and the
    integer each stands for. *)

(** What may follow a digit: nothing, a digit, or one underscore and a
    digit; with the values of the digits read. *)
Inductive digits_tail : list N -> list N -> Prop :=
| tail_end : digits_tail [] []
| tail_digit ch d u ds :
    digit_value ch = Some d -> digits_tail u ds -> digits_tail (ch :: u) (d :: ds)
| tail_underscore ch d u ds :
    digit_value ch = Some d -> digits_tail u ds ->
    digits_tail (95%N :: ch :: u) (d :: ds).

(** Digits with single underscores between them. *)
Inductive digits_run : list N -> list N -> Prop :=
| run_intro ch d u ds :
    digit_value ch = Some d -> digits_tail u ds -> digits_run (ch :: u) (d :: ds).

Definition decimal_value (ds : list N) : N :=
  foldl (fun acc d => 10 * acc + d)%N 0%N ds.

(** [u] reads as the integer [n]: white space, an optional sign, at most
    4300 digits with single underscores between them, white space. *)
Definition int_literal (u : list N) (n : Z) : Prop :=
  exists ws1 sg body ds ws2,
    u = (ws1 ++ sg ++ body ++ ws2)%list /\
    Forall (fun ch => is_space ch = true) ws1 /\
    Forall (fun ch => is_space ch = true) ws2 /\
    digits_run body ds /\
    length ds <= 4300 /\
    ((sg = [] \/ sg = [43%N]) /\ n = Z.of_N (decimal_value ds) \/
     sg = [45%N] /\ n = (- Z.of_N (decimal_value ds))%Z).

(** Where the scan of the digits stops: at the end, or before a character
    that is neither a digit nor an underscore. *)
Definition scan_stops (rest : list N) : Prop :=
  match rest with
  | [] => True
  | ch :: _ => digit_value ch = None /\ ch <> 95%N
  end.

Definition scan_step (acc d : N) : N := (10 * acc + d)%N.

Definition py_int (v : value) : result Z :=
  match v with
  | VInt n => Ok n
  | VBool b => Ok (Z.b2z b)
  | VStr s =>
      match int_of_str s with
      | Some n => Ok n
      | None => Raise ValueError
      end
  | VNone | VList _ | VDatetime _ | VObjectId _ => Raise TypeError
  end.

(** ** [serialize_doc] *)

(** [hasattr(v, "isoformat")]. *)
Definition has_isoformat (v : value) : bool :=
  match v with VDatetime _ => true | _ => false end.

Definition call_isoformat (v : value) : value :=
  match v with VDatetime t => VStr (isoformat t) | _ => v end.

(** One round of the loop over [("created_at", "updated_at")]. *)
Definition iso_field (k : string) (d : dict) : dict :=
  match d !! k with
  | Some v => if has_isoformat v then <[k := call_isoformat v]> d else d
  | None => d
  end.

(** [if d.get("_id") is not None: d["id"] = str(d.pop("_id"))]. *)
Definition id_step (d : dict) : dict :=
  match d !! "_id" with
  | Some VNone | None => d
  | Some v => <["id" := VStr (py_str v)]> (delete "_id" d)
  end.

Definition serialize_doc (doc : dict) : dict :=
  let d := doc in
  let d := id_step d in
  foldl (fun d k => iso_field k d) d ["created_at"; "updated_at"].

(** [serialize_doc] called on what [find_one] returned: [dict(None)] raises
    [TypeError]. *)
Definition serialize_doc_dyn (created : option dict) : result dict :=
  match created with
  | Some d => Ok (serialize_doc d)
  | None => Raise TypeError
  end.

(** ** [list.sort(key=..., reverse=...)] *)

(** The builtin calls [key] once on every element, from left to right,
    before it moves anything: an exception of [key] leaves the list as it
    was.  With [reverse] it reverses the list, sorts it stably in ascending
    order of the keys and reverses the outcome. *)
Section Sort.
Context {A : Type}.

Fixpoint insert_keyed (x : Z * A) (l : list (Z * A)) : list (Z * A) :=
  match l with
  | [] => [x]
  | y :: l' => if (x.1 <=? y.1)%Z then x :: l else y :: insert_keyed x l'
  end.

(** A stable ascending sort on the keys. *)
Fixpoint sort_keyed (l : list (Z * A)) : list (Z * A) :=
  match l with
  | [] => []
  | x :: l' => insert_keyed x (sort_keyed l')
  end.

Definition list_sort (key : A -> result Z) (reverse : bool) (l : list A)
  : result (list A) :=
  rbind (rmap key l) (fun keys =>
    let kl := zip keys l in
    let kl := if reverse then list.reverse kl else kl in
    let kl := sort_keyed kl in
    let kl := if reverse then list.reverse kl else kl in
    Ok (kl.*2)).

Definition key_le : relation (Z * A) := fun x y => (x.1 <= y.1)%Z.

(** [a] may stand before [b] in a list in descending order of [key]. *)
Definition key_desc (key : A -> result Z) (a b : A) : Prop :=
  exists ka kb, key a = Ok ka /\ key b = Ok kb /\ (kb <= ka)%Z.
End Sort.

#[export] Instance exn_eq_dec : EqDecision exn.
Proof. solve_decision. Defined.

#[export] Instance result_eq_dec {A} `{EqDecision A} : EqDecision (result A).
Proof. solve_decision. Defined.

(** ** The store *)

(** What the service asks of [db[collection]]: the pymongo calls it makes.
    [find_one] is the lookup by [{"_id": oid}]. *)
Class Store (S : Type) := {
  count_documents : string -> S -> nat;
  insert_one : string -> dict -> S -> ObjectId * S;
  insert_many : string -> list dict -> S -> S;
  find : string -> S -> list dict;
  find_one : string -> ObjectId -> S -> option dict
}.

(** A store that keeps what it is given. *)
Class StoreLaws (S : Type) `{Store S} : Prop := {
  count_insert_many : forall c ds s,
    count_documents c (insert_many c ds s) = count_documents c s + length ds;
  count_find : forall c s, count_documents c s = length (find c s)
}.

Inductive call :=
| CountDocuments (c : string)
| InsertOne (c : string) (d : dict)
| InsertMany (c : string) (ds : list dict)
| Find (c : string)
| FindOne (c : string) (o : ObjectId).

(** The state a request runs in: the module's [db] ([None] when the
    connection was not set up), the clock as the sequence of instants its
    readings return, how many readings were made, and the store calls made
    so far. *)
Record world (S : Type) := mk_world {
  db : option S;
  utc_clock : nat -> datetime;
  clock_reads : nat;
  calls : list call
}.
Arguments mk_world {S}.
Arguments db {S}.
Arguments utc_clock {S}.
Arguments clock_reads {S}.
Arguments calls {S}.

Definition M (S A : Type) : Type := world S -> result A * world S.

Definition ret {S A} (a : A) : M S A := fun w => (Ok a, w).

Definition bind {S A B} (m : M S A) (k : A -> M S B) : M S B :=
  fun w =>
    match m w with
    | (Ok a, w') => k a w'
    | (Raise e, w') => (Raise e, w')
    end.

Definition lift {S A} (r : result A) : M S A := fun w => (r, w).

Declare Scope service_scope.
Delimit Scope service_scope with service.
Notation "'let!' x ':=' m 'in' k" := (bind m (fun x => k))
  (at level 10, x name, m at level 100, k at level 200) : service_scope.
Notation "'run!' m 'in' k" := (bind m (fun _ => k))
  (at level 10, m at level 100, k at level 200) : service_scope.

(** The input models of the routes. *)
Record ProjectIn := mk_ProjectIn {
  title : string;
  image : string;
  location : option string;
  year : option string;
  description : option string;
  tags : option (list string)
}.

Record ContactIn := mk_ContactIn {
  name : string;
  email : string;
  message : string
}.

Inductive BaseModel :=
| MProject (p : ProjectIn)
| MContact (c : ContactIn).

Definition opt_value {A} (f : A -> value) (o : option A) : value :=
  match o with Some a => f a | None => VNone end.

(** The fields of a model as a dict; an optional field left out is [None]. *)
Definition model_dump (m : BaseModel) : dict :=
  match m with
  | MProject p =>
      list_to_map
        [("title", VStr (title p)); ("image", VStr (image p));
         ("location", opt_value VStr (location p));
         ("year", opt_value VStr (year p));
         ("description", opt_value VStr (description p));
         ("tags", opt_value VList (tags p))]
  | MContact c =>
      list_to_map
        [("name", VStr (name c)); ("email", VStr (email c));
         ("message", VStr (message c))]
  end.

Definition seed : list dict :=
  [ list_to_map
      [("title", VStr "Casa Horizonte");
       ("image", VStr "https://images.unsplash.com/photo-1494526585095-c41746248156?q=80&w=1600&auto=format&fit=crop");
       ("location", VStr "Monterey, CA");
       ("year", VStr "2023");
       ("tags", VList ["Residential"; "Coastal"]);
       ("description", VStr "A cliffside residence framing expansive Pacific views through disciplined apertures and warm concrete.")];
    list_to_map
      [("title", VStr "Gallery of Light");
       ("image", VStr "https://images.unsplash.com/photo-1487956382158-bb926046304a?q=80&w=1600&auto=format&fit=crop");
       ("location", VStr "Santa Fe, NM");
       ("year", VStr "2022");
       ("tags", VList ["Cultural"]);
       ("description", VStr "Adaptive reuse gallery washed in high desert light with calibrated roof lanterns.")];
    list_to_map
      [("title", VStr "Courtyard House");
       ("image", VStr "https://images.unsplash.com/photo-1487958449943-2429e8be8625?q=80&w=1600&auto=format&fit=crop");
       ("location", VStr "Austin, TX");
       ("year", VStr "2021");
       ("tags", VList ["Residential"; "Courtyard"]);
       ("description", VStr "A quiet inward-facing plan organized around a planted court and deep overhangs.")];
    list_to_map
      [("title", VStr "Cliffside Studio");
       ("image", VStr "https://images.unsplash.com/photo-1502005229762-cf1b2da7c3f5?q=80&w=1600&auto=format&fit=crop");
       ("location", VStr "Big Sur, CA");
       ("year", VStr "2020");
       ("tags", VList ["Studio"]);
       ("description", VStr "A minimal artist studio perched on a rocky outcrop, tuned to the horizon.")] ].

(** The status a route answers with: its own code for a returned value,
    500 for an exception the handler lets through.  A body that fails
    validation is answered 422 by the framework before the handler runs. *)
Definition http_status {A} (route_status : nat) (r : result A) : nat :=
  match r with
  | Ok _ => route_status
  | Raise _ => 500
  end.

Definition validation_error_status : nat := 422.

Section Service.
Context {S : Type} `{Store S}.
Local Open Scope service_scope.

(** [create_document] and [get_documents] come from the [database] module,
    as [db] does. *)
Variable create_document : string -> BaseModel -> M S string.
Variable get_documents : string -> M S (list dict).

Definition log (c : call) (w : world S) : world S :=
  mk_world (db w) (utc_clock w) (clock_reads w) (calls w ++ [c]).

Definition set_db (s : S) (w : world S) : world S :=
  mk_world (Some s) (utc_clock w) (clock_reads w) (calls w).

(** [datetime.now(timezone.utc)]: one reading of the clock. *)
Definition now : M S datetime :=
  fun w =>
    (Ok (utc_clock w (clock_reads w)),
     mk_world (db w) (utc_clock w) (Datatypes.S (clock_reads w)) (calls w)).

(** [db[c]]: subscripting [None] raises [TypeError]. *)
Definition db_getitem (c : string) : M S unit :=
  fun w =>
    match db w with
    | Some _ => (Ok tt, w)
    | None => (Raise TypeError, w)
    end.

Definition call_count_documents (c : string) : M S nat :=
  fun w =>
    match db w with
    | Some s => (Ok (count_documents c s), log (CountDocuments c) w)
    | None => (Raise TypeError, w)
    end.

Definition call_insert_many (c : string) (ds : list dict) : M S unit :=
  fun w =>
    match db w with
    | Some s => (Ok tt, log (InsertMany c ds) (set_db (insert_many c ds s) w))
    | None => (Raise TypeError, w)
    end.

Definition call_find_one (c : string) (o : ObjectId) : M S (option dict) :=
  fun w =>
    match db w with
    | Some s => (Ok (find_one c o s), log (FindOne c o) w)
    | None => (Raise TypeError, w)
    end.

(** The loop [for s in seed]: two readings of the clock for each record. *)
Fixpoint stamp_seed (l : list dict) : M S (list dict) :=
  match l with
  | [] => ret []
  | s :: l' =>
      let! t1 := now in
      let! t2 := now in
      let! rest := stamp_seed l' in
      ret (<["updated_at" := VDatetime t2]> (<["created_at" := VDatetime t1]> s) :: rest)
  end.

Definition ensure_seed_projects : M S unit :=
  fun w =>
    match db w with
    | None => (Ok tt, w)
    | Some _ =>
        (let! count := call_count_documents "projects" in
         if Nat.eqb count 0 then
           let! stamped := stamp_seed seed in
           call_insert_many "projects" stamped
         else ret tt) w
    end.

(** The sort key [lambda d: int(d.get("year", 0))]. *)
Definition year_key (d : dict) : result Z :=
  py_int (default (VInt 0) (d !! "year")).

(** [try: docs.sort(...) except Exception: pass]. *)
Definition sort_docs (docs : list dict) : list dict :=
  match list_sort year_key true docs with
  | Ok sorted => sorted
  | Raise _ => docs
  end.

Definition list_projects : M S (list dict) :=
  run! ensure_seed_projects in
  let! docs := get_documents "projects" in
  ret (serialize_doc <$> sort_docs docs).

Definition create_in (c : string) (data : BaseModel) : M S dict :=
  let! inserted_id := create_document c data in
  run! db_getitem c in
  let! oid := lift (ObjectId_of_str inserted_id) in
  let! created := call_find_one c oid in
  lift (serialize_doc_dyn created).

Definition create_project (project : ProjectIn) : M S dict :=
  create_in "projects" (MProject project).

Definition submit_contact (data : ContactIn) : M S dict :=
  create_in "contacts" (MContact data).

(** Modelled from the spec: [create_document] of the [database] module,
    which is not part of the sources.  It stamps [created_at] and
    [updated_at] with the current UTC instant, both set to the same
    instant, inserts the document and returns the identifier the store
    assigned, as a string.  The spec does not say what it does without a
    store; here it raises. *)
Definition spec_create_document (c : string) (data : BaseModel) : M S string :=
  fun w =>
    match db w with
    | None => (Raise DatabaseError, w)
    | Some _ =>
        (let! t := now in
         let d := <["updated_at" := VDatetime t]>
                    (<["created_at" := VDatetime t]> (model_dump data)) in
         fun w =>
           match db w with
           | Some s =>
               let '(o, s') := insert_one c d s in
               (Ok (str_ObjectId o), log (InsertOne c d) (set_db s' w))
           | None => (Raise DatabaseError, w)
           end) w
    end.

(** Modelled from the spec: [get_documents] of the [database] module,
    which is not part of the sources.  It fetches all documents of the
    collection, without filter or limit, and yields the empty sequence
    when the store is unreachable. *)
Definition spec_get_documents (c : string) : M S (list dict) :=
  fun w =>
    match db w with
    | Some s => (Ok (find c s), log (Find c) w)
    | None => (Ok [], w)
    end.
End Service.

(** ** Two stores *)

(** An in-memory store: every collection is the list of its documents in
    the order of insertion, and identifiers are handed out by a counter.
    The documents this service inserts carry no [_id]; the store adds it. *)
Record mem_store := mk_mem_store {
  colls : gmap string (list dict);
  next_id : N
}.

Definition mem_docs (c : string) (s : mem_store) : list dict :=
  default [] (colls s !! c).

Definition has_id (o : ObjectId) (d : dict) : bool :=
  match d !! "_id" with
  | Some (VObjectId o') => (o =? o')%N
  | _ => false
  end.

Definition mem_insert_one (c : string) (d : dict) (s : mem_store)
  : ObjectId * mem_store :=
  let o := next_id s in
  (o, mk_mem_store (<[c := (mem_docs c s ++ [<["_id" := VObjectId o]> d])%list]> (colls s))
                   (N.succ o)).

Fixpoint mem_insert_many (c : string) (ds : list dict) (s : mem_store) : mem_store :=
  match ds with
  | [] => s
  | d :: ds' => mem_insert_many c ds' (mem_insert_one c d s).2
  end.

#[export] Instance mem_Store : Store mem_store := {|
  count_documents c s := length (mem_docs c s);
  insert_one := mem_insert_one;
  insert_many := mem_insert_many;
  find := mem_docs;
  find_one c o s := List.find (has_id o) (mem_docs c s)
|}.

Definition mem_empty : mem_store := mk_mem_store ∅ 0.

(** A store that loses what it is given: inserts are acknowledged, nothing
    is ever found. *)
Definition lossy_Store : Store N := {|
  count_documents _ _ := 0;
  insert_one _ _ n := (n, N.succ n);
  insert_many _ _ n := n;
  find _ _ := [];
  find_one _ _ _ := None
|}.

(** ** Notions used in the statements *)

(** The integer a document is ordered by, stated apart from [int]: 0 when
    [year] is absent, the integer itself for an integer, 0 or 1 for a
    boolean, the integer its literal stands for for a string; no other value
    has one. *)
Definition year_value (d : dict) (n : Z) : Prop :=
  match d !! "year" with
  | None => n = 0%Z
  | Some (VInt m) => n = m
  | Some (VBool b) => n = Z.b2z b
  | Some (VStr s) => exists u, utf8_decode s = Some u /\ int_literal u n
  | Some _ => False
  end.

(** The [year] of a document is absent or a string that reads as an
    integer. *)
Definition year_literal (d : dict) : Prop :=
  d !! "year" = None \/
  exists s u n, d !! "year" = Some (VStr s) /\ utf8_decode s = Some u /\ int_literal u n.

(** [a] may stand before [b] in a list in descending order of the year. *)
Definition year_desc (a b : dict) : Prop :=
  exists ka kb, year_value a ka /\ year_value b kb /\ (kb <= ka)%Z.

Definition year_literal_b (d : dict) : bool :=
  match d !! "year" with
  | None => true
  | Some (VStr s) => match int_of_str s with Some _ => true | None => false end
  | Some _ => false
  end.

(** What [list_projects] sorts: the documents fetched after the seeding. *)
Definition fetch_projects {S} `{Store S}
    (get_documents : string -> M S (list dict)) : M S (list dict) :=
  bind ensure_seed_projects (fun _ => get_documents "projects").

Definition years_of (docs : list dict) : list (option value) :=
  (fun d : dict => d !! "year") <$> docs.

(** A clock that advances by a microsecond at every reading. *)
Definition ticking_clock (n : nat) : datetime :=
  mk_datetime 2024 1 2 3 4 5 (N.of_nat n) true.

Definition mem_world (s : mem_store) : world mem_store :=
  mk_world (Some s) ticking_clock 0 [].

Definition project_of_year (y : string) : dict :=
  list_to_map [("title", VStr ("Project " ++ y)); ("image", VStr "p.jpg"); ("year", VStr y)].

(** A store whose projects have the given years, in that order. *)
Definition years_store (ys : list string) : mem_store :=
  mem_insert_many "projects" (project_of_year <$> ys) mem_empty.

(** The seed records as the loop of [ensure_seed_projects] leaves them when
    the clock has been read [r] times before: record [i] gets readings
    [r + 2 i] and [r + 2 i + 1]. *)
Fixpoint stamp_from (clock : nat -> datetime) (r : nat) (l : list dict) : list dict :=
  match l with
  | [] => []
  | s :: l' =>
      <["updated_at" := VDatetime (clock (Datatypes.S r))]>
        (<["created_at" := VDatetime (clock r)]> s)
      :: stamp_from clock (Datatypes.S (Datatypes.S r)) l'
  end.

Definition lossy_world : world N := mk_world (Some 0%N) ticking_clock 0 [].

Definition ada : ContactIn := mk_ContactIn "Ada" "ada@example.com" "hi".

(** The world after a project was created without a year. *)
Definition world_with_null_year : world mem_store :=
  (create_project spec_create_document
     (mk_ProjectIn "Pavilion" "p.jpg" None None None None)
     (mem_world (years_store ["2020"; "2023"]))).2.

Definition is_string (v : value) : Prop := exists s, v = VStr s.

(** ** The diagnostic route *)

Section Diagnostic.
Context {S : Type}.

(** [os.getenv], and [db.list_collection_names()], which returns the names
    or raises an exception whose [str] is the message given. *)
Variable getenv : string -> option string.
Variable list_collection_names : S -> list string + string.

(** The truth value of [os.getenv(name)]: set, and not the empty string. *)
Definition env_truthy (name : string) : bool :=
  match getenv name with
  | Some (String _ _) => true
  | Some EmptyString | None => false
  end.

(** [test_database].  Nothing in the outer [try] can raise once the inner
    one has caught the failure of [list_collection_names], so the outer
    handler has no case here.  [str(e)[:50]] is the first 50 characters of
    the message. *)
Definition test_database (w : world S) : dict :=
  let response : dict :=
    list_to_map
      [("backend", VStr "✅ Running");
       ("database", VStr "❌ Not Available");
       ("database_url", VNone);
       ("database_name", VNone);
       ("connection_status", VStr "Not Connected");
       ("collections", VList [])] in
  match db w with
  | Some s =>
      let response := <["database" := VStr "✅ Available"]> response in
      let response :=
        <["database_url" :=
            VStr (if env_truthy "DATABASE_URL" then "✅ Set" else "❌ Not Set")]> response in
      let response :=
        <["database_name" :=
            VStr (if env_truthy "DATABASE_NAME" then "✅ Set" else "❌ Not Set")]> response in
      let response := <["connection_status" := VStr "Connected"]> response in
      match list_collection_names s with
      | inl collections =>
          let response := <["collections" := VList (take 10 collections)]> response in
          <["database" := VStr "✅ Connected & Working"]> response
      | inr msg =>
          <["database" := VStr ("⚠️  Connected but Error: " ++ utf8_take 50 msg)]> response
      end
  | None => <["database" := VStr "⚠️  Available but not initialized"]> response
  end.
End Diagnostic.

(** ** Further notions used in the statements *)

(** A [get_documents] that fails. *)
Definition failing_get_documents {S} (c : string) : M S (list dict) :=
  fun w => (Raise DatabaseError, w).


(** A store whose projects carry the year as an integer, as a boolean, as a
    string and not at all. *)
Definition mixed_years_store : mem_store :=
  mem_insert_many "projects"
    [ {["title" := VStr "a"; "year" := VInt 2019%Z]};
      {["title" := VStr "b"; "year" := VStr "2024"]};
      {["title" := VStr "c"]};
      {["title" := VStr "d"; "year" := VBool true]};
      {["title" := VStr "e"; "year" := VInt 2024%Z]} ]
    mem_empty.

Definition titles_of (docs : list dict) : list (option value) :=
  (fun d : dict => d !! "title") <$> docs.

Definition year_coercible_b (d : dict) : bool := is_ok (year_key d).

(** U+00A0, the no-break space, in UTF-8. *)
Definition nbsp : string := String (ascii_of_N 194) (String (ascii_of_N 160) EmptyString).

(** The stores the service can reach: the counter of identifiers fits in
    twelve bytes, and every stored document carries an identifier that the
    counter has passed. *)
Definition mem_wf (s : mem_store) : Prop :=
  (next_id s < 2 ^ 96)%N /\
  forall c (d : dict), d ∈ mem_docs c s ->
    exists o, d !! "_id" = Some (VObjectId o) /\ (o < next_id s)%N.

Definition bob : ContactIn := mk_ContactIn "Bob" "bob@example.com" "hello".

(** A store that holds a message of Bob already. *)
Definition store_with_bob : mem_store :=
  (mem_insert_one "contacts" (model_dump (MContact bob)) mem_empty).2.

(** The document [create_document] stores for [data] at the instant [t],
    once the store has given it the identifier [o]. *)
Definition stored_document (data : BaseModel) (t : datetime) (o : ObjectId) : dict :=
  <["_id" := VObjectId o]>
    (<["updated_at" := VDatetime t]> (<["created_at" := VDatetime t]> (model_dump data))).

(** An error message of 50 characters and 55 bytes. *)
Definition accented_message : string :=
  "délai dépassé: le serveur de données ne répond pas".

Example int_of_str_ex1 : int_of_str " 2_023 " = Some 2023%Z.
Proof. vm_compute. reflexivity. Qed.
Example int_of_str_ex2 : int_of_str "N/A" = None.
Proof. vm_compute. reflexivity. Qed.
Example int_of_str_ex3 : int_of_str "-07" = Some (-7)%Z.
Proof. vm_compute. reflexivity. Qed.
Example int_of_str_ex4 : int_of_str "1__2" = None.
Proof. vm_compute. reflexivity. Qed.
Example int_of_str_ex5 : int_of_str "+ 2" = None.
Proof. vm_compute. reflexivity. Qed.
Example int_of_str_ex6 : int_of_str "２０２３" = Some 2023%Z.
Proof. vm_compute. reflexivity. Qed.
Example int_of_str_ex7 : int_of_str (nbsp ++ "2023") = Some 2023%Z.
Proof. vm_compute. reflexivity. Qed.
Example int_of_str_ex8 : int_of_str "٢٠٢٣" = Some 2023%Z.
Proof. vm_compute. reflexivity. Qed.
Example int_of_str_ex9 : int_of_str "²" = None.
Proof. vm_compute. reflexivity. Qed.
Example utf8_take_ex : utf8_take 2 "２é𝟙a" = "２é".
Proof. vm_compute. reflexivity. Qed.
Example str_oid_ex : str_ObjectId 255%N = "0000000000000000000000ff".
Proof. reflexivity. Qed.
Example oid_roundtrip_ex : ObjectId_of_str (str_ObjectId 255%N) = Ok 255%N.
Proof. reflexivity. Qed.
Example py_str_ex : py_str (VInt (-120)) = "-120".
Proof. vm_compute. reflexivity. Qed.
Example py_str_ex2 : py_str (VList ["a"; "it's"]) = String.concat "" ["['a', "; String dquote "it's"; String dquote "]"].
Proof. vm_compute. reflexivity. Qed.
Example iso_ex : isoformat (mk_datetime 2024 1 2 3 4 5 6 true) = "2024-01-02T03:04:05.000006+00:00".
Proof. vm_compute. reflexivity. Qed.

(** ** The integers that [int] reads *)

Section IntLiteral.
Local Open Scope list_scope.

Lemma blank_chars_plain :
  Forall (fun ch => digit_value ch = None /\ ch <> 95%N /\ ch <> 43%N /\ ch <> 45%N)
         blank_chars.
Proof.
  unfold blank_chars.
  repeat (constructor; [split_and!; [vm_compute; reflexivity | discriminate..] |]).
  constructor.
Qed.

Lemma is_space_plain (ch : N) :
  is_space ch = true ->
  digit_value ch = None /\ ch <> 95%N /\ ch <> 43%N /\ ch <> 45%N.
Proof.
  unfold is_space. intros (x & Hx & ->%N.eqb_eq)%existsb_exists.
  pose proof blank_chars_plain as Hall. rewrite Forall_forall in Hall.
  apply Hall. by apply list_elem_of_In.
Qed.

Lemma digit_not_space (ch d : N) : digit_value ch = Some d -> is_space ch = false.
Proof.
  intros Hd. destruct (is_space ch) eqn:E; [|done].
  apply is_space_plain in E as [E _]. congruence.
Qed.

Lemma digit_not_sign (ch d : N) :
  digit_value ch = Some d -> ch <> 95%N /\ ch <> 43%N /\ ch <> 45%N.
Proof. intros Hd. split_and!; intros ->; vm_compute in Hd; discriminate. Qed.

Lemma skip_space_app (ws u : list N) :
  Forall (fun ch => is_space ch = true) ws -> skip_space (ws ++ u) = skip_space u.
Proof. induction 1 as [|ch ws Hch _ IH]; simpl; [done|]. by rewrite Hch. Qed.

Lemma skip_space_split (u : list N) :
  exists ws, u = ws ++ skip_space u /\ Forall (fun ch => is_space ch = true) ws.
Proof.
  induction u as [|ch u (ws & Hu & Hws)]; simpl.
  - by exists [].
  - destruct (is_space ch) eqn:E.
    + exists (ch :: ws). split; [simpl; by f_equal | by constructor].
    + by exists [].
Qed.

Lemma skip_space_nil (u : list N) :
  skip_space u = [] <-> Forall (fun ch => is_space ch = true) u.
Proof.
  split.
  - intros Hu. destruct (skip_space_split u) as (ws & Heq & Hws).
    rewrite Hu, app_nil_r in Heq. by subst.
  - intros Hall. rewrite <- (app_nil_r u). by rewrite skip_space_app.
Qed.

Lemma skip_space_head (ch : N) (u : list N) :
  is_space ch = false -> skip_space (ch :: u) = ch :: u.
Proof. intros E. simpl. by rewrite E. Qed.

Lemma scan_stops_blanks (ws : list N) :
  Forall (fun ch => is_space ch = true) ws -> scan_stops ws.
Proof.
  destruct 1 as [|ch ws Hch _]; simpl; [done|].
  apply is_space_plain in Hch as (Hd & Hus & _). by split.
Qed.

Lemma scan_digits_complete (body ds rest : list N) :
  digits_tail body ds -> scan_stops rest ->
  forall acc k,
    scan_digits (body ++ rest) false acc k =
      Some (foldl scan_step acc ds, k + length ds, rest).
Proof.
  intros Htail Hstop. induction Htail as [|ch d u ds Hd _ IH|ch d u ds Hd _ IH];
    intros acc k.
  - simpl. rewrite Nat.add_0_r.
    destruct rest as [|ch rest]; simpl; [done|].
    destruct Hstop as [-> Hus]. unfold is_underscore.
    by apply N.eqb_neq in Hus as ->.
  - cbn [app scan_digits]. rewrite Hd, IH. cbn [foldl length].
    do 2 f_equal. f_equal. lia.
  - cbn [app scan_digits]. change (digit_value 95) with (@None N).
    cbn [is_underscore N.eqb Pos.eqb]. rewrite Hd, IH. cbn [foldl length].
    do 2 f_equal. f_equal. lia.
Qed.

Lemma scan_digits_sound (u : list N) :
  forall prev acc k v k' rest,
    scan_digits u prev acc k = Some (v, k', rest) ->
    exists body ds,
      u = body ++ rest /\
      (if prev : bool then digits_run body ds else digits_tail body ds) /\
      v = foldl scan_step acc ds /\ k' = k + length ds /\ scan_stops rest.
Proof.
  induction u as [|ch u IH]; intros prev acc k v k' rest; cbn [scan_digits].
  - destruct prev; [done|]. intros [= <- <- <-].
    exists [], []. split_and!; try done; try constructor; try (simpl; lia).
  - destruct (digit_value ch) as [d|] eqn:Hd.
    + intros (body & ds & -> & Hb & -> & -> & Hstop)%IH.
      exists (ch :: body), (d :: ds). split_and!; try done.
      * destruct prev; by constructor.
      * simpl. lia.
    + destruct (is_underscore ch) eqn:Hus.
      * destruct prev; [done|].
        intros (body & ds & -> & Hb & -> & -> & Hstop)%IH.
        apply N.eqb_eq in Hus as ->. destruct Hb as [ch d u' ds Hd' Ht].
        exists (95%N :: ch :: u'), (d :: ds). split_and!; try done.
        by constructor.
      * destruct prev; [done|]. intros [= <- <- <-].
        exists [], []. split_and!; [done | constructor | done | simpl; lia |].
        simpl. split; [done|]. by apply N.eqb_neq.
Qed.

Lemma parse_unsigned_complete (body ds ws2 : list N) :
  digits_run body ds -> length ds <= 4300 ->
  Forall (fun ch => is_space ch = true) ws2 ->
  parse_unsigned (body ++ ws2) = Some (decimal_value ds).
Proof.
  intros [ch d u ds' Hd Ht] Hlen Hws. cbn [app parse_unsigned].
  destruct (digit_not_sign ch d Hd) as (Hus & _ & _).
  unfold is_underscore at 1. apply N.eqb_neq in Hus as ->.
  cbn [scan_digits]. rewrite Hd.
  rewrite (scan_digits_complete u ds' ws2 Ht (scan_stops_blanks ws2 Hws)).
  cbn [Nat.add Nat.eqb]. simpl in Hlen.
  assert (Hlt : Nat.ltb int_max_str_digits (Datatypes.S (length ds')) = false)
    by (apply Nat.ltb_ge; unfold int_max_str_digits; lia).
  rewrite Hlt. by apply skip_space_nil in Hws as ->.
Qed.

Lemma parse_unsigned_sound (u : list N) (v : N) :
  parse_unsigned u = Some v ->
  exists body ds ws2,
    u = body ++ ws2 /\ digits_run body ds /\ length ds <= 4300 /\
    Forall (fun ch => is_space ch = true) ws2 /\ v = decimal_value ds.
Proof.
  unfold parse_unsigned. destruct u as [|ch u]; [done|].
  destruct (is_underscore ch) eqn:Hus; [done|].
  destruct (scan_digits (ch :: u) false 0 0) as [[[n digits] rest]|] eqn:Hscan; [|done].
  destruct (Nat.eqb digits 0) eqn:Hz; [done|].
  destruct (Nat.ltb int_max_str_digits digits) eqn:Hlim; [done|].
  destruct (skip_space rest) eqn:Hrest; [|done]. intros [= <-].
  apply scan_digits_sound in Hscan as (body & ds & Hu & Ht & -> & -> & _).
  apply Nat.eqb_neq in Hz. apply Nat.ltb_ge in Hlim. unfold int_max_str_digits in Hlim.
  apply skip_space_nil in Hrest.
  exists body, ds, rest. split_and!; [done | | simpl in *; lia | done | done].
  destruct Ht as [|c d b ds' Hd Ht|c d b ds' Hd Ht].
  - simpl in Hz. lia.
  - by constructor.
  - simpl in Hu. injection Hu as -> _. vm_compute in Hus. discriminate.
Qed.

(** [int] reads exactly the integer literals, each as the integer it stands
    for. *)
Lemma int_of_codepoints_spec (u : list N) (n : Z) :
  int_of_codepoints u = Some n <-> int_literal u n.
Proof.
  split.
  - unfold int_of_codepoints.
    destruct (skip_space_split u) as (ws1 & Hu & Hws1).
    destruct (skip_space u) as [|ch u'] eqn:Hskip; [done|].
    destruct (ch =? 43)%N eqn:Hplus; [|destruct (ch =? 45)%N eqn:Hminus].
    + apply N.eqb_eq in Hplus as ->.
      destruct (parse_unsigned u') as [v|] eqn:Hp; [|done]. intros [= <-].
      apply parse_unsigned_sound in Hp as (body & ds & ws2 & -> & Hr & Hl & Hws2 & ->).
      exists ws1, [43%N], body, ds, ws2. split_and!; try done. left. by split; [right|].
    + apply N.eqb_eq in Hminus as ->.
      destruct (parse_unsigned u') as [v|] eqn:Hp; [|done]. intros [= <-].
      apply parse_unsigned_sound in Hp as (body & ds & ws2 & -> & Hr & Hl & Hws2 & ->).
      exists ws1, [45%N], body, ds, ws2. split_and!; try done. by right.
    + destruct (parse_unsigned (ch :: u')) as [v|] eqn:Hp; [|done]. intros [= <-].
      apply parse_unsigned_sound in Hp as (body & ds & ws2 & Hb & Hr & Hl & Hws2 & ->).
      exists ws1, [], body, ds, ws2. rewrite Hu, Hb. split_and!; try done.
      left. by split; [left|].
  - intros (ws1 & sg & body & ds & ws2 & -> & Hws1 & Hws2 & Hr & Hl & Hsg).
    unfold int_of_codepoints. rewrite skip_space_app by done.
    pose proof (parse_unsigned_complete body ds ws2 Hr Hl Hws2) as Hp.
    destruct Hsg as [[[-> | ->] ->] | [-> ->]].
    + destruct Hr as [ch d b ds' Hd Ht]. cbn [app] in *.
      rewrite skip_space_head by (by eapply digit_not_space).
      destruct (digit_not_sign ch d Hd) as (_ & Hplus & Hminus).
      apply N.eqb_neq in Hplus as ->. apply N.eqb_neq in Hminus as ->.
      by rewrite Hp.
    + cbn [app]. rewrite skip_space_head by done. cbn [N.eqb Pos.eqb]. by rewrite Hp.
    + cbn [app]. rewrite skip_space_head by done. cbn [N.eqb Pos.eqb]. by rewrite Hp.
Qed.
End IntLiteral.

(** ** Characters and bytes *)

Lemma utf8_take_length (n : nat) (s : string) : utf8_length (utf8_take n s) <= n.
Proof.
  revert n. induction s as [|b s IH]; intros n; simpl; [lia|].
  destruct (is_continuation b) eqn:Eb; simpl.
  - rewrite Eb. apply IH.
  - destruct n as [|n]; simpl; [lia|]. rewrite Eb. specialize (IH n). lia.
Qed.

Lemma utf8_take_all (n : nat) (s : string) :
  utf8_length s <= n -> utf8_take n s = s.
Proof.
  revert n. induction s as [|b s IH]; intros n; simpl; [done|].
  destruct (is_continuation b) eqn:Eb.
  - intros Hl. f_equal. by apply IH.
  - destruct n as [|n]; [lia|]. intros Hl. f_equal. apply IH. lia.
Qed.

Lemma utf8_take_prefix (n : nat) (s : string) :
  exists rest, s = utf8_take n s ++ rest.
Proof.
  revert n. induction s as [|b s IH]; intros n; cbn [utf8_take].
  - by exists "".
  - destruct (is_continuation b).
    + destruct (IH n) as [rest Hr]. exists rest. rewrite Hr at 1. reflexivity.
    + destruct n as [|n]; [by exists (String b s)|].
      destruct (IH n) as [rest Hr]. exists rest. rewrite Hr at 1. reflexivity.
Qed.

Lemma lead_not_continuation (b : ascii) :
  (N_of_ascii b <? 128)%N = true \/ (N_of_ascii b <? 194)%N = false ->
  is_continuation b = false.
Proof.
  unfold is_continuation. intros [H | H].
  - apply N.ltb_lt in H. apply andb_false_iff. left. apply N.leb_gt. lia.
  - apply N.ltb_ge in H. apply andb_false_iff. right. apply N.ltb_ge. lia.
Qed.

(** Taking characters on the bytes is taking code points. *)
Lemma utf8_decode_take (k : nat) :
  forall (s : string) (n : nat) (u : list N),
    String.length s <= k ->
    utf8_decode s = Some u ->
    utf8_decode (utf8_take n s) = Some (take n u).
Proof.
  induction k as [|k IH]; intros s n u Hk Hdec.
  - destruct s; [|simpl in Hk; lia]. simpl in *. injection Hdec as <-. by destruct n.
  - destruct s as [|b s1]; [simpl in *; injection Hdec as <-; by destruct n|].
    cbn [utf8_decode] in Hdec. simpl in Hk.
    destruct (N_of_ascii b <? 128)%N eqn:E1.
    { destruct (utf8_decode s1) as [u1|] eqn:D1; [|done]. injection Hdec as <-.
      cbn [utf8_take]. rewrite lead_not_continuation by (by left).
      destruct n as [|n]; [done|]. cbn [utf8_decode take]. rewrite E1.
      rewrite (IH s1 n u1); [done | lia | done]. }
    destruct (N_of_ascii b <? 194)%N eqn:E2; [done|].
    assert (Hlead : is_continuation b = false) by (apply lead_not_continuation; by right).
    destruct (N_of_ascii b <? 224)%N eqn:E3.
    { destruct s1 as [|c1 s2]; [done|].
      destruct (is_continuation c1) eqn:C1; [|done].
      destruct (utf8_decode s2) as [u1|] eqn:D1; [|done]. injection Hdec as <-.
      cbn [utf8_take]. rewrite Hlead.
      destruct n as [|n]; [done|]. cbn [utf8_take]. rewrite C1.
      cbn [utf8_decode take]. rewrite E1, E2, E3, C1.
      simpl in Hk. rewrite (IH s2 n u1); [done | lia | done]. }
    destruct (N_of_ascii b <? 240)%N eqn:E4.
    { destruct s1 as [|c1 [|c2 s3]]; [done | done |].
      match type of Hdec with (if ?c then _ else _) = _ => destruct c eqn:Hc; [|done] end.
      destruct (utf8_decode s3) as [u1|] eqn:D1; [|done]. injection Hdec as <-.
      pose proof Hc as Hc'. rewrite !andb_true_iff in Hc'.
      destruct Hc' as [[[C1 C2] _] _].
      cbn [utf8_take]. rewrite Hlead.
      destruct n as [|n]; [done|]. cbn [utf8_take]. rewrite C1, C2.
      cbn [utf8_decode take]. rewrite E1, E2, E3, E4, Hc.
      simpl in Hk. rewrite (IH s3 n u1); [done | lia | done]. }
    destruct (N_of_ascii b <? 245)%N eqn:E5; [|done].
    destruct s1 as [|c1 [|c2 [|c3 s4]]]; [done | done | done |].
    match type of Hdec with (if ?c then _ else _) = _ => destruct c eqn:Hc; [|done] end.
    destruct (utf8_decode s4) as [u1|] eqn:D1; [|done]. injection Hdec as <-.
    pose proof Hc as Hc'. rewrite !andb_true_iff in Hc'.
    destruct Hc' as [[[[C1 C2] C3] _] _].
    cbn [utf8_take]. rewrite Hlead.
    destruct n as [|n]; [done|]. cbn [utf8_take]. rewrite C1, C2, C3.
    cbn [utf8_decode take]. rewrite E1, E2, E3, E4, E5, Hc.
    simpl in Hk. rewrite (IH s4 n u1); [done | lia | done].
Qed.

(** ** The serializer *)

Lemma iso_field_lookup_ne k k' (d : dict) :
  k ≠ k' -> iso_field k d !! k' = d !! k'.
Proof.
  intros Hne. unfold iso_field.
  destruct (d !! k) as [v|]; [|done].
  destruct (has_isoformat v); [|done].
  by rewrite lookup_insert_ne.
Qed.

Lemma iso_field_lookup_eq k (d : dict) :
  iso_field k d !! k = call_isoformat <$> d !! k.
Proof.
  unfold iso_field.
  destruct (d !! k) as [v|] eqn:E; [|by rewrite E].
  destruct (has_isoformat v) eqn:Hv.
  - by rewrite lookup_insert_eq.
  - rewrite E. by destruct v.
Qed.

Lemma iso_field_id k (d : dict) :
  (forall v, d !! k = Some v -> has_isoformat v = false) -> iso_field k d = d.
Proof.
  intros Hk. unfold iso_field.
  destruct (d !! k) as [v|] eqn:E; [|done].
  by rewrite (Hk v).
Qed.

Lemma call_isoformat_plain v : has_isoformat (call_isoformat v) = false.
Proof. by destruct v. Qed.

Lemma serialize_doc_unfold d :
  serialize_doc d = iso_field "updated_at" (iso_field "created_at" (id_step d)).
Proof. reflexivity. Qed.

Lemma id_step_lookup_ne k (d : dict) :
  k ≠ "_id" -> k ≠ "id" -> id_step d !! k = d !! k.
Proof.
  intros H1 H2. unfold id_step.
  destruct (d !! "_id") as [[]|]; try done;
    by rewrite lookup_insert_ne, lookup_delete_ne.
Qed.

Lemma serialize_doc_lookup_ne k (d : dict) :
  k ≠ "created_at" -> k ≠ "updated_at" ->
  serialize_doc d !! k = id_step d !! k.
Proof.
  intros H1 H2. rewrite serialize_doc_unfold.
  by rewrite !iso_field_lookup_ne.
Qed.

Lemma id_step_absent (d : dict) :
  d !! "_id" = None \/ d !! "_id" = Some VNone -> id_step d = d.
Proof. unfold id_step. by intros [-> | ->]. Qed.

Lemma id_step_id_gone (d : dict) :
  id_step d !! "_id" = None \/ id_step d !! "_id" = Some VNone.
Proof.
  unfold id_step.
  destruct (d !! "_id") as [v|] eqn:E; [|by left].
  destruct v; try (left; by rewrite lookup_insert_ne, lookup_delete_eq).
  by right.
Qed.

(** A document that has no identifier to translate and no timestamp object
    left is returned as it is. *)
Lemma serialize_doc_fixed (d : dict) :
  d !! "_id" = None \/ d !! "_id" = Some VNone ->
  (forall v, d !! "created_at" = Some v -> has_isoformat v = false) ->
  (forall v, d !! "updated_at" = Some v -> has_isoformat v = false) ->
  serialize_doc d = d.
Proof.
  intros Hid Hc Hu. rewrite serialize_doc_unfold, id_step_absent by done.
  rewrite (iso_field_id "created_at") by done.
  by rewrite iso_field_id.
Qed.

Lemma serialize_doc_timestamp_plain k (d : dict) v :
  k = "created_at" \/ k = "updated_at" ->
  serialize_doc d !! k = Some v -> has_isoformat v = false.
Proof.
  rewrite serialize_doc_unfold. intros [-> | ->].
  - rewrite iso_field_lookup_ne, iso_field_lookup_eq by done.
    destruct (id_step d !! "created_at"); [|done].
    intros [= <-]. apply call_isoformat_plain.
  - rewrite iso_field_lookup_eq.
    destruct (iso_field "created_at" (id_step d) !! "updated_at"); [|done].
    intros [= <-]. apply call_isoformat_plain.
Qed.

(** C4 as it is written fails on a document whose [_id] is present and
    bound to [None]: no [id] is produced and [_id] stays. *)
Lemma serialize_doc_translates_id_counterexample :
  let d : dict := {["_id" := VNone]} in
  d !! "_id" = Some VNone /\
  serialize_doc d !! "id" = None /\
  serialize_doc d !! "_id" = Some VNone /\
  ~ (serialize_doc d !! "id" = Some (VStr (py_str VNone)) /\
     serialize_doc d !! "_id" = None).
Proof.
  intros d. split_and!; [reflexivity.. |].
  intros [Hid _]. vm_compute in Hid. discriminate.
Qed.

(** C4 (amended): for every document whose [_id] is present and bound to a
    value other than [None], the serialized document has [id] equal to the
    string form of that value, and has no [_id] key. *)
Theorem serialize_doc_translates_id (d : dict) (v : value) :
  d !! "_id" = Some v -> v <> VNone ->
  serialize_doc d !! "id" = Some (VStr (py_str v)) /\
  serialize_doc d !! "_id" = None.
Proof.
  intros Hv Hnn.
  rewrite !serialize_doc_lookup_ne by done.
  unfold id_step. rewrite Hv.
  destruct v; try done;
    by rewrite lookup_insert_eq, lookup_insert_ne, lookup_delete_eq.
Qed.

Lemma serialize_doc_translates_id_witness :
  let d : dict := <["_id" := VObjectId 255%N]> {["title" := VStr "Casa"]} in
  serialize_doc d !! "id" = Some (VStr "0000000000000000000000ff") /\
  serialize_doc d !! "_id" = None.
Proof.
  apply (serialize_doc_translates_id _ (VObjectId 255%N)); [reflexivity | discriminate].
Defined.

(** C8: the serializer is idempotent, and a mapping that lacks [_id] and
    whose [created_at] and [updated_at], where present, are strings is
    returned unchanged. *)
Theorem serialize_doc_idempotent :
  (forall d : dict, serialize_doc (serialize_doc d) = serialize_doc d) /\
  (forall d : dict,
     d !! "_id" = None ->
     (forall k v, k = "created_at" \/ k = "updated_at" ->
                  d !! k = Some v -> exists s, v = VStr s) ->
     serialize_doc d = d).
Proof.
  split.
  - intros d. apply serialize_doc_fixed.
    + rewrite serialize_doc_lookup_ne by done. apply id_step_id_gone.
    + intros v. apply serialize_doc_timestamp_plain. by left.
    + intros v. apply serialize_doc_timestamp_plain. by right.
  - intros d Hid Hts. apply serialize_doc_fixed; [by left | |].
    + intros v Hv. destruct (Hts "created_at" v) as [s ->]; auto.
    + intros v Hv. destruct (Hts "updated_at" v) as [s ->]; auto.
Qed.

Lemma serialize_doc_idempotent_witness :
  let d : dict :=
    <["id" := VStr "0000000000000000000000ff"]>
      (<["created_at" := VStr "2024-01-02T03:04:05+00:00"]> {["name" := VStr "Ada"]}) in
  serialize_doc d = d.
Proof.
  apply (proj2 serialize_doc_idempotent).
  - reflexivity.
  - intros k v [-> | ->]; vm_compute; intros [= <-]; eauto.
Defined.

(** C9: when [_id] is present and bound to [None], the serialized document
    still has [_id] bound to [None], and its [id] entry is what the input
    had: none is added. *)
Theorem serialize_doc_keeps_null_id (d : dict) :
  d !! "_id" = Some VNone ->
  serialize_doc d !! "_id" = Some VNone /\
  serialize_doc d !! "id" = d !! "id" /\
  (d !! "id" = None -> serialize_doc d !! "id" = None).
Proof.
  intros Hid.
  rewrite !serialize_doc_lookup_ne by done.
  rewrite id_step_absent by (by right).
  by repeat split.
Qed.

Lemma serialize_doc_keeps_null_id_witness :
  let d : dict := <["_id" := VNone]> {["title" := VStr "Casa"]} in
  serialize_doc d !! "_id" = Some VNone /\
  serialize_doc d !! "id" = d !! "id" /\
  (d !! "id" = None -> serialize_doc d !! "id" = None).
Proof. apply serialize_doc_keeps_null_id. reflexivity. Defined.

(** ** Sorting *)

Section SortFacts.
Context {A : Type}.
Implicit Types (x : Z * A) (l : list (Z * A)).

Lemma insert_keyed_perm x l : insert_keyed x l ≡ₚ x :: l.
Proof.
  induction l as [|y l IH]; simpl; [done|].
  destruct (x.1 <=? y.1)%Z; [done|].
  rewrite IH. apply Permutation_swap.
Qed.

Lemma sort_keyed_perm l : sort_keyed l ≡ₚ l.
Proof.
  induction l as [|x l IH]; simpl; [done|].
  by rewrite insert_keyed_perm, IH.
Qed.

Lemma insert_keyed_sorted x l :
  StronglySorted key_le l -> StronglySorted key_le (insert_keyed x l).
Proof.
  induction l as [|y l IH]; simpl; intros Hs.
  - repeat constructor.
  - apply StronglySorted_cons in Hs as [Hy Hs].
    destruct (x.1 <=? y.1)%Z eqn:E.
    + apply Z.leb_le in E. constructor; [by constructor|].
      constructor; [done|].
      eapply Forall_impl; [exact Hy|]. unfold key_le. intros; lia.
    + apply Z.leb_gt in E. constructor; [by apply IH|].
      rewrite insert_keyed_perm. constructor; [|done].
      unfold key_le. lia.
Qed.

Lemma sort_keyed_sorted l : StronglySorted key_le (sort_keyed l).
Proof.
  induction l as [|x l IH]; simpl; [constructor|].
  by apply insert_keyed_sorted.
Qed.

(** Inserting keeps, among the entries of one key, the new one first. *)
Lemma filter_insert_keyed (k : Z) x l :
  filter (fun p => p.1 = k) (insert_keyed x l) = filter (fun p => p.1 = k) (x :: l).
Proof.
  induction l as [|y l IH]; simpl; [done|].
  destruct (x.1 <=? y.1)%Z eqn:E; [done|].
  apply Z.leb_gt in E.
  rewrite (filter_cons _ y), IH, !filter_cons.
  repeat case_decide; try done; lia.
Qed.

Lemma filter_sort_keyed (k : Z) l :
  filter (fun p => p.1 = k) (sort_keyed l) = filter (fun p => p.1 = k) l.
Proof.
  induction l as [|x l IH]; simpl; [done|].
  by rewrite filter_insert_keyed, !filter_cons, IH.
Qed.

Lemma StronglySorted_reverse (R : relation (Z * A)) l :
  StronglySorted R l -> StronglySorted (flip R) (reverse l).
Proof.
  induction 1 as [|x l Hs IH Hx]; [constructor|].
  rewrite reverse_cons. apply StronglySorted_app. split_and!.
  - intros a b Ha Hb. apply list_elem_of_singleton in Hb as ->.
    rewrite elem_of_reverse in Ha.
    rewrite Forall_forall in Hx. unfold flip. by apply Hx.
  - done.
  - repeat constructor.
Qed.

Lemma StronglySorted_on (P : Z * A -> Prop) (R R' : relation (Z * A)) l :
  (forall a b, P a -> P b -> R a b -> R' a b) ->
  Forall P l -> StronglySorted R l -> StronglySorted R' l.
Proof.
  intros HR HP. induction 1 as [|x l Hs IH Hx]; [constructor|].
  apply Forall_cons in HP as [Hpx HP].
  constructor; [by apply IH|].
  rewrite Forall_forall in *. naive_solver.
Qed.

Variable key : A -> result Z.

Lemma rmap_zip (d : list A) keys :
  rmap key d = Ok keys ->
  Forall (fun p => key p.2 = Ok p.1) (zip keys d) /\ (zip keys d).*2 = d.
Proof.
  revert keys. induction d as [|a d IH]; simpl; intros keys.
  - intros [= <-]. by split.
  - destruct (key a) as [ka|] eqn:Ea; simpl; [|done].
    destruct (rmap key d) as [ks|]; simpl; [|done].
    intros [= <-]. destruct (IH ks eq_refl) as [IH1 IH2].
    simpl. split; [by constructor | by f_equal].
Qed.

Lemma rmap_total (d : list A) :
  Forall (fun a => is_ok (key a) = true) d -> exists keys, rmap key d = Ok keys.
Proof.
  induction 1 as [|a d Ha _ [keys IH]]; simpl; [by eexists|].
  destruct (key a); [|done]. rewrite IH. by eexists.
Qed.

Lemma rmap_raise (d : list A) :
  Exists (fun a => is_ok (key a) = false) d -> exists e, rmap key d = Raise e.
Proof.
  induction 1 as [a d Ha | a d _ [e IH]]; simpl.
  - destruct (key a); [done | by eexists].
  - destruct (key a); simpl; [|by eexists]. rewrite IH. by eexists.
Qed.

Lemma filter_key_snd (k : Z) l :
  Forall (fun p => key p.2 = Ok p.1) l ->
  filter (fun a => key a = Ok k) (l.*2) = (filter (fun p => p.1 = k) l).*2.
Proof.
  induction 1 as [|p l Hp _ IH]; [done|].
  rewrite fmap_cons, !filter_cons, IH.
  repeat case_decide; try done.
  - rewrite Hp in *. naive_solver.
  - rewrite Hp in *. naive_solver.
Qed.

(** The sort in descending order of a key that raises on no element: the
    outcome is a rearrangement, in descending order of the key, in which
    the elements of one key keep the order they had. *)
Lemma list_sort_reverse_spec (d : list A) :
  Forall (fun a => is_ok (key a) = true) d ->
  exists out,
    list_sort key true d = Ok out /\
    out ≡ₚ d /\
    StronglySorted (key_desc key) out /\
    forall k, filter (fun a => key a = Ok k) out = filter (fun a => key a = Ok k) d.
Proof.
  intros Hok. destruct (rmap_total d Hok) as [keys Hkeys].
  destruct (rmap_zip d keys Hkeys) as [Hall Hsnd].
  unfold list_sort. rewrite Hkeys. simpl.
  set (kl := zip keys d) in *.
  assert (Hperm : reverse (sort_keyed (reverse kl)) ≡ₚ kl)
    by (by rewrite reverse_Permutation, sort_keyed_perm, reverse_Permutation).
  assert (Hall' : Forall (fun p => key p.2 = Ok p.1) (reverse (sort_keyed (reverse kl))))
    by (by rewrite Hperm).
  eexists. split; [done|]. split_and!.
  - by rewrite Hperm, Hsnd.
  - apply (StronglySorted_fmap snd (fun p q => key_desc key p.2 q.2)); [done|].
    eapply StronglySorted_on; [|exact Hall'|].
    2: { apply StronglySorted_reverse, sort_keyed_sorted. }
    intros a b Ha Hb Hab. exists a.1, b.1. by repeat split.
  - intros k. rewrite filter_key_snd by done.
    rewrite filter_reverse, filter_sort_keyed, filter_reverse, reverse_involutive.
    rewrite <- filter_key_snd by done. by rewrite Hsnd.
Qed.

Lemma list_sort_raise (rv : bool) (d : list A) :
  Exists (fun a => is_ok (key a) = false) d ->
  exists e, list_sort key rv d = Raise e.
Proof.
  intros Hex. destruct (rmap_raise d Hex) as [e He].
  exists e. unfold list_sort. by rewrite He.
Qed.
End SortFacts.

(** ** Listing *)

Lemma year_key_serialize_doc (d : dict) : year_key (serialize_doc d) = year_key d.
Proof.
  unfold year_key.
  by rewrite serialize_doc_lookup_ne, id_step_lookup_ne.
Qed.

Lemma sort_docs_raise (docs : list dict) :
  Exists (fun d => exists e, year_key d = Raise e) docs -> sort_docs docs = docs.
Proof.
  intros Hex. unfold sort_docs.
  destruct (list_sort_raise year_key true docs) as [e ->]; [|done].
  eapply Exists_impl; [exact Hex|]. by intros d [e ->].
Qed.

Lemma filter_year_serialize (k : Z) (l : list dict) :
  filter (fun d => year_key d = Ok k) (serialize_doc <$> l) =
  serialize_doc <$> filter (fun d => year_key d = Ok k) l.
Proof.
  induction l as [|d l IH]; [done|].
  rewrite fmap_cons, !filter_cons, IH, year_key_serialize_doc.
  by case_decide.
Qed.

(** [year_key] returns the integer of the document, and raises when it has
    none. *)
Lemma year_key_spec (d : dict) (n : Z) : year_key d = Ok n <-> year_value d n.
Proof.
  unfold year_key, year_value.
  destruct (d !! "year") as [[| b | m | s | l | t | o]|]; simpl;
    try (split; [done | done]).
  - split; [by intros [= <-] | by intros ->].
  - split; [by intros [= <-] | by intros ->].
  - unfold int_of_str. destruct (utf8_decode s) as [u|].
    + destruct (int_of_codepoints u) as [z|] eqn:E.
      * split.
        -- intros [= <-]. exists u. split; [done|]. by apply int_of_codepoints_spec.
        -- intros (u0 & [= <-] & Hl). apply int_of_codepoints_spec in Hl. congruence.
      * split; [done|].
        intros (u0 & [= <-] & Hl). apply int_of_codepoints_spec in Hl. congruence.
    + split; [done|]. by intros (u0 & [=] & _).
  - split; [by intros [= <-] | by intros ->].
Qed.

Lemma year_no_value (d : dict) :
  ~ (exists n, year_value d n) <-> exists e, year_key d = Raise e.
Proof.
  destruct (year_key d) as [z|e] eqn:E.
  - split.
    + intros Hno. destruct Hno. exists z. by apply year_key_spec.
    + by intros [e [=]].
  - split; [by exists e|].
    intros _ [n Hn]. apply year_key_spec in Hn. congruence.
Qed.

Lemma year_literal_ok (d : dict) : year_literal d -> is_ok (year_key d) = true.
Proof.
  intros Hl.
  assert (Hv : exists n, year_value d n).
  { unfold year_value. destruct Hl as [-> | (s & u & n & -> & Hu & Hn)]; eauto. }
  destruct Hv as [n Hn]. apply year_key_spec in Hn. by rewrite Hn.
Qed.

Lemma year_literal_b_spec (docs : list dict) :
  forallb year_literal_b docs = true -> Forall year_literal docs.
Proof.
  induction docs as [|d docs IH]; simpl; [constructor|].
  intros [Hd Hdocs]%andb_prop. constructor; [|by apply IH].
  unfold year_literal_b, year_literal, int_of_str in *.
  destruct (d !! "year") as [[]|]; try done; [|by left].
  destruct (utf8_decode s) as [u|] eqn:Eu; [|done].
  destruct (int_of_codepoints u) as [n|] eqn:E; [|done].
  right. exists s, u, n. split_and!; [done | done |]. by apply int_of_codepoints_spec.
Qed.

Lemma key_desc_year_desc (a b : dict) : key_desc year_key a b -> year_desc a b.
Proof.
  intros (ka & kb & Ha & Hb & Hle). exists ka, kb.
  split_and!; [by apply year_key_spec | by apply year_key_spec | done].
Qed.

Lemma StronglySorted_weaken {A} (R R' : relation A) (l : list A) :
  (forall a b, R a b -> R' a b) -> StronglySorted R l -> StronglySorted R' l.
Proof.
  intros HR. induction 1 as [|x l Hs IH Hx]; constructor; [done|].
  eapply Forall_impl; [exact Hx|]. auto.
Qed.

(** The sort of [list_projects] on documents that all have an integer to
    be ordered by. *)
Lemma sort_docs_sorted (docs : list dict) :
  Forall (fun d => exists n, year_value d n) docs ->
  sort_docs docs ≡ₚ docs /\
  StronglySorted year_desc (serialize_doc <$> sort_docs docs) /\
  forall k, filter (fun d => year_key d = Ok k) (serialize_doc <$> sort_docs docs) =
            serialize_doc <$> filter (fun d => year_key d = Ok k) docs.
Proof.
  intros Hall.
  destruct (list_sort_reverse_spec year_key docs) as (sorted & Hs & Hp & Hsorted & Hst).
  { eapply Forall_impl; [exact Hall|]. intros d [n Hn].
    apply year_key_spec in Hn. by rewrite Hn. }
  unfold sort_docs. rewrite Hs. split_and!.
  - done.
  - apply (StronglySorted_weaken (key_desc year_key)); [apply key_desc_year_desc|].
    eapply StronglySorted_fmap; [|exact Hsorted].
    intros a b (ka & kb & Ha & Hb & Hle). exists ka, kb.
    by rewrite !year_key_serialize_doc.
  - intros k. by rewrite filter_year_serialize, Hst.
Qed.

Section Listing.
Context {S : Type} `{Store S}.
Variable get_documents : string -> M S (list dict).

Lemma list_projects_fetched (w w' : world S) (docs : list dict) :
  fetch_projects get_documents w = (Ok docs, w') ->
  list_projects get_documents w = (Ok (serialize_doc <$> sort_docs docs), w').
Proof.
  unfold fetch_projects, list_projects, bind, ret.
  destruct (ensure_seed_projects w) as [[[]|e] w1]; [|done].
  by intros ->.
Qed.
End Listing.

(** C1: when every fetched document has a [year] that is absent or a string
    that reads as an integer, [list_projects] returns the serialized
    documents rearranged in descending order of that integer, documents of
    one year in the order they were fetched.  The integer is the one the
    literal stands for, and it is the key the code sorts by.  Four records of
    years 2020, 2023, 2021, 2022 come back as 2023, 2022, 2021, 2020, also
    when the years are written with blanks, a sign, an underscore or the
    digits of another script. *)
Theorem list_projects_sorted_desc_stable :
  (forall (S : Type) (HS : Store S) (get_documents : string -> M S (list dict))
          (w w' : world S) (docs : list dict),
      fetch_projects get_documents w = (Ok docs, w') ->
      Forall year_literal docs ->
      exists out,
        list_projects get_documents w = (Ok out, w') /\
        out ≡ₚ serialize_doc <$> docs /\
        StronglySorted year_desc out /\
        forall k, filter (fun d => year_key d = Ok k) out =
                  serialize_doc <$> filter (fun d => year_key d = Ok k) docs) /\
  (forall (d : dict) (n : Z), year_key d = Ok n <-> year_value d n) /\
  (let w := mem_world (years_store ["2020"; "2023"; "2021"; "2022"]) in
   exists docs out w',
     fetch_projects spec_get_documents w = (Ok docs, w') /\
     years_of docs = [Some (VStr "2020"); Some (VStr "2023");
                      Some (VStr "2021"); Some (VStr "2022")] /\
     list_projects spec_get_documents w = (Ok out, w') /\
     years_of out = [Some (VStr "2023"); Some (VStr "2022");
                     Some (VStr "2021"); Some (VStr "2020")]) /\
  (let w := mem_world (years_store [" 2_020 "; "２０２３"; "+2021"; nbsp ++ "2022"]) in
   exists docs out w',
     fetch_projects spec_get_documents w = (Ok docs, w') /\
     years_of docs = [Some (VStr " 2_020 "); Some (VStr "２０２３");
                      Some (VStr "+2021"); Some (VStr (nbsp ++ "2022"))] /\
     list_projects spec_get_documents w = (Ok out, w') /\
     years_of out = [Some (VStr "２０２３"); Some (VStr (nbsp ++ "2022"));
                     Some (VStr "+2021"); Some (VStr " 2_020 ")]).
Proof.
  split_and!.
  - intros S HS gd w w' docs Hfetch Hall.
    destruct (sort_docs_sorted docs) as (Hp & Hsorted & Hst).
    { eapply Forall_impl; [exact Hall|]. intros d Hd.
      apply year_literal_ok in Hd. destruct (year_key d) as [n|] eqn:E; [|done].
      exists n. by apply year_key_spec. }
    exists (serialize_doc <$> sort_docs docs). split_and!; [|by rewrite Hp|done|done].
    by apply list_projects_fetched.
  - apply year_key_spec.
  - intros w.
    exists (find "projects" (years_store ["2020"; "2023"; "2021"; "2022"])),
           (serialize_doc <$>
              sort_docs (find "projects" (years_store ["2020"; "2023"; "2021"; "2022"]))),
           (list_projects spec_get_documents w).2.
    split_and!; vm_compute; reflexivity.
  - intros w.
    exists (find "projects" (years_store [" 2_020 "; "２０２３"; "+2021"; nbsp ++ "2022"])),
           (serialize_doc <$>
              sort_docs (find "projects"
                           (years_store [" 2_020 "; "２０２３"; "+2021"; nbsp ++ "2022"]))),
           (list_projects spec_get_documents w).2.
    split_and!; vm_compute; reflexivity.
Qed.

Lemma list_projects_sorted_desc_stable_witness :
  let w := mem_world (years_store ["2021"; "２０２３"; "2021"]) in
  exists out w',
    list_projects spec_get_documents w = (Ok out, w') /\
    StronglySorted year_desc out /\
    (fun d : dict => d !! "title") <$> filter (fun d => year_key d = Ok 2021%Z) out =
      (fun d : dict => d !! "title") <$>
        (serialize_doc <$>
           filter (fun d => year_key d = Ok 2021%Z)
                  (find "projects" (years_store ["2021"; "２０２３"; "2021"]))).
Proof.
  intros w.
  destruct (proj1 list_projects_sorted_desc_stable mem_store mem_Store
              spec_get_documents w
              (log (Find "projects") (log (CountDocuments "projects") w))
              (find "projects" (years_store ["2021"; "２０２３"; "2021"])))
    as (out & Hout & _ & Hsorted & Hst).
  - vm_compute. reflexivity.
  - apply year_literal_b_spec. vm_compute. reflexivity.
  - exists out. eexists. split; [exact Hout|]. split; [exact Hsorted|].
    by rewrite Hst.
Defined.

(** C5: when some fetched document has a [year] that no integer is read
    from, a string that is no integer literal for instance, [list_projects]
    gives up the sort and returns the serialized documents in the fetched
    order, as a value and not as an exception; with four records of which
    one has the year N/A, all four come back. *)
Theorem list_projects_unsortable :
  (forall (S : Type) (HS : Store S) (get_documents : string -> M S (list dict))
          (w w' : world S) (docs : list dict),
      fetch_projects get_documents w = (Ok docs, w') ->
      Exists (fun d => ~ exists n, year_value d n) docs ->
      list_projects get_documents w = (Ok (serialize_doc <$> docs), w')) /\
  (forall d : dict, ~ (exists n, year_value d n) <-> exists e, year_key d = Raise e) /\
  (let w := mem_world (years_store ["2020"; "N/A"; "2021"; "2022"]) in
   exists docs w',
     fetch_projects spec_get_documents w = (Ok docs, w') /\
     list_projects spec_get_documents w = (Ok (serialize_doc <$> docs), w') /\
     length docs = 4 /\
     years_of (serialize_doc <$> docs) =
       [Some (VStr "2020"); Some (VStr "N/A"); Some (VStr "2021"); Some (VStr "2022")]).
Proof.
  split_and!.
  - intros S HS gd w w' docs Hfetch Hex.
    rewrite (list_projects_fetched gd w w' docs Hfetch).
    rewrite sort_docs_raise; [done|].
    eapply Exists_impl; [exact Hex|]. intros d Hd. by apply year_no_value.
  - apply year_no_value.
  - intros w.
    exists (find "projects" (years_store ["2020"; "N/A"; "2021"; "2022"])),
           (list_projects spec_get_documents w).2.
    split_and!; vm_compute; reflexivity.
Qed.

Lemma list_projects_unsortable_witness :
  let w := mem_world (years_store ["2020"; "N/A"; "2021"; "2022"]) in
  list_projects spec_get_documents w =
    (Ok (serialize_doc <$> find "projects" (years_store ["2020"; "N/A"; "2021"; "2022"])),
     log (Find "projects") (log (CountDocuments "projects") w)).
Proof.
  intros w.
  apply (proj1 list_projects_unsortable mem_store mem_Store spec_get_documents).
  - vm_compute. reflexivity.
  - apply Exists_cons_tl, Exists_cons_hd. apply year_no_value.
    exists ValueError. vm_compute. reflexivity.
Defined.

(** C10: when some fetched document has the key [year] bound to [None], the
    coercion of that element raises, the sort is given up and the documents
    come back in the fetched order; the default 0 is used for an absent
    [year] only. *)
Theorem list_projects_null_year :
  (forall (S : Type) (HS : Store S) (get_documents : string -> M S (list dict))
          (w w' : world S) (docs : list dict),
      fetch_projects get_documents w = (Ok docs, w') ->
      Exists (fun d : dict => d !! "year" = Some VNone) docs ->
      list_projects get_documents w = (Ok (serialize_doc <$> docs), w')) /\
  (forall d : dict, d !! "year" = Some VNone -> year_key d = Raise TypeError) /\
  (forall d : dict, d !! "year" = None -> year_key d = Ok 0%Z).
Proof.
  split_and!.
  - intros S HS gd w w' docs Hfetch Hex.
    rewrite (list_projects_fetched gd w w' docs Hfetch).
    rewrite sort_docs_raise; [done|].
    eapply Exists_impl; [exact Hex|].
    intros d Hd. exists TypeError. unfold year_key. by rewrite Hd.
  - intros d Hd. unfold year_key. by rewrite Hd.
  - intros d Hd. unfold year_key. by rewrite Hd.
Qed.

Lemma list_projects_null_year_witness :
  exists docs w',
    years_of docs = [Some (VStr "2020"); Some (VStr "2023"); Some VNone] /\
    list_projects spec_get_documents world_with_null_year =
      (Ok (serialize_doc <$> docs), w').
Proof.
  exists (find "projects" (default mem_empty (db world_with_null_year))),
         (list_projects spec_get_documents world_with_null_year).2.
  split; [vm_compute; reflexivity|].
  apply (proj1 list_projects_null_year mem_store mem_Store spec_get_documents).
  - vm_compute. reflexivity.
  - do 2 apply Exists_cons_tl. apply Exists_cons_hd. vm_compute. reflexivity.
Defined.

(** ** Seeding *)

Lemma mem_docs_insert_one c d s :
  mem_docs c (mem_insert_one c d s).2 =
  (mem_docs c s ++ [<["_id" := VObjectId (next_id s)]> d])%list.
Proof. unfold mem_docs at 1. simpl. by rewrite lookup_insert_eq. Qed.

Lemma mem_docs_insert_many c ds s :
  length (mem_docs c (mem_insert_many c ds s)) = length (mem_docs c s) + length ds.
Proof.
  revert s. induction ds as [|d ds IH]; intros s; cbn [mem_insert_many length]; [lia|].
  rewrite IH, mem_docs_insert_one, length_app. cbn [length]. lia.
Qed.

#[export] Instance mem_StoreLaws : StoreLaws mem_store.
Proof.
  split.
  - intros c ds s. apply mem_docs_insert_many.
  - done.
Qed.

Lemma stamp_from_length clock r l : length (stamp_from clock r l) = length l.
Proof. revert r. induction l as [|s l IH]; intros r; simpl; [done|]. by rewrite IH. Qed.

Lemma stamp_from_lookup clock r l i (d : dict) :
  stamp_from clock r l !! i = Some d ->
  d !! "created_at" = Some (VDatetime (clock (r + 2 * i))) /\
  d !! "updated_at" = Some (VDatetime (clock (r + 2 * i + 1))).
Proof.
  revert r i. induction l as [|s l IH]; intros r i; simpl; [done|].
  destruct i as [|i]; simpl.
  - intros [= <-]. rewrite Nat.add_0_r, Nat.add_1_r.
    by rewrite lookup_insert_ne, !lookup_insert_eq.
  - intros Hd. destruct (IH _ _ Hd) as [-> ->].
    split; do 2 f_equal; f_equal; lia.
Qed.

Section Seeding.
Context {S : Type} `{Store S}.

Lemma stamp_seed_spec (l : list dict) (w : world S) :
  stamp_seed l w =
    (Ok (stamp_from (utc_clock w) (clock_reads w) l),
     mk_world (db w) (utc_clock w) (clock_reads w + 2 * length l) (calls w)).
Proof.
  revert w. induction l as [|s l IH]; intros w.
  - simpl. unfold ret. destruct w. simpl. do 2 f_equal. lia.
  - cbn [stamp_seed]. unfold bind at 1 2. cbn [now].
    unfold bind at 1. rewrite IH. unfold ret. cbn.
    do 2 f_equal. lia.
Qed.

Lemma ensure_seed_projects_empty (w : world S) (s : S) :
  db w = Some s -> count_documents "projects" s = 0 ->
  let stamped := stamp_from (utc_clock w) (clock_reads w) seed in
  ensure_seed_projects w =
    (Ok tt,
     mk_world (Some (insert_many "projects" stamped s)) (utc_clock w)
              (clock_reads w + 8)
              (calls w ++ [CountDocuments "projects"; InsertMany "projects" stamped])).
Proof.
  intros Hdb Hcount. unfold ensure_seed_projects. rewrite Hdb.
  unfold bind at 1. unfold call_count_documents. rewrite Hdb, Hcount.
  cbn [Nat.eqb]. unfold bind. rewrite stamp_seed_spec.
  unfold call_insert_many, log, set_db. cbn. rewrite Hdb.
  by rewrite <- app_assoc.
Qed.

Lemma ensure_seed_projects_nonempty (w : world S) (s : S) :
  db w = Some s -> count_documents "projects" s <> 0 ->
  ensure_seed_projects w = (Ok tt, log (CountDocuments "projects") w).
Proof.
  intros Hdb Hcount. unfold ensure_seed_projects. rewrite Hdb.
  unfold bind, call_count_documents. rewrite Hdb.
  apply Nat.eqb_neq in Hcount. by rewrite Hcount.
Qed.
End Seeding.

(** C2: [ensure_seed_projects] inserts the four seed records exactly when
    the count of the projects is zero.  On an empty collection the
    collection then counts four documents, and the call made right after
    only counts; when [db] is [None] nothing is called and nothing
    changes. *)
Theorem ensure_seed_projects_iff_empty
    (S : Type) (HS : Store S) (HL : StoreLaws S) (w : world S) :
  (db w = None -> ensure_seed_projects w = (Ok tt, w)) /\
  (forall s, db w = Some s -> count_documents "projects" s = 0 ->
     let stamped := stamp_from (utc_clock w) (clock_reads w) seed in
     let s' := insert_many "projects" stamped s in
     let w' := mk_world (Some s') (utc_clock w) (clock_reads w + 8)
                 (calls w ++ [CountDocuments "projects"; InsertMany "projects" stamped]) in
     ensure_seed_projects w = (Ok tt, w') /\
     length stamped = 4 /\
     count_documents "projects" s' = 4 /\
     ensure_seed_projects w' = (Ok tt, log (CountDocuments "projects") w')) /\
  (forall s, db w = Some s -> count_documents "projects" s <> 0 ->
     ensure_seed_projects w = (Ok tt, log (CountDocuments "projects") w)).
Proof.
  split_and!.
  - intros Hdb. unfold ensure_seed_projects. by rewrite Hdb.
  - intros s Hdb Hcount stamped s' w'.
    assert (Hfour : count_documents "projects" s' = 4).
    { unfold s'. rewrite count_insert_many, Hcount. unfold stamped.
      by rewrite stamp_from_length. }
    split_and!.
    + by apply (ensure_seed_projects_empty w s).
    + unfold stamped. by rewrite stamp_from_length.
    + done.
    + apply (ensure_seed_projects_nonempty w' s'); [done|]. by rewrite Hfour.
  - intros s Hdb Hcount. by apply (ensure_seed_projects_nonempty w s).
Qed.

Lemma ensure_seed_projects_iff_empty_witness :
  let w := mem_world mem_empty in
  exists w' s',
    ensure_seed_projects w = (Ok tt, w') /\
    db w' = Some s' /\
    count_documents "projects" s' = 4 /\
    ensure_seed_projects w' = (Ok tt, log (CountDocuments "projects") w').
Proof.
  intros w.
  destruct (ensure_seed_projects_iff_empty mem_store mem_Store mem_StoreLaws w)
    as (_ & Hempty & _).
  destruct (Hempty mem_empty) as (H1 & _ & H3 & H4); [reflexivity | reflexivity |].
  do 2 eexists. split; [exact H1|]. split; [reflexivity|]. split; [exact H3 | exact H4].
Defined.

(** C3 as it is written fails: with a clock that advances between two
    readings, the first seeded record has a [created_at] and an
    [updated_at] that differ, and the clock was read eight times for the
    four records. *)
Lemma seed_timestamps_same_instant_counterexample :
  let w' := (ensure_seed_projects (mem_world mem_empty)).2 in
  let first := find "projects" (default mem_empty (db w')) !! 0 in
  (fun d : dict => d !! "created_at") <$> first = Some (Some (VDatetime (ticking_clock 0))) /\
  (fun d : dict => d !! "updated_at") <$> first = Some (Some (VDatetime (ticking_clock 1))) /\
  ticking_clock 0 <> ticking_clock 1 /\
  clock_reads w' = 8.
Proof.
  intros w' first.
  split_and!; [vm_compute; reflexivity | vm_compute; reflexivity | | vm_compute; reflexivity].
  vm_compute. discriminate.
Qed.

(** C3 (amended): the seeding reads the clock twice for each record,
    [created_at] first and [updated_at] next, eight readings for the four
    records; the two fields of a record hold the same instant exactly when
    its two readings returned the same instant. *)
Theorem seed_timestamps_two_readings (S : Type) (HS : Store S) (w : world S) (s : S) :
  db w = Some s -> count_documents "projects" s = 0 ->
  exists stamped w',
    ensure_seed_projects w = (Ok tt, w') /\
    db w' = Some (insert_many "projects" stamped s) /\
    clock_reads w' = clock_reads w + 8 /\
    length stamped = 4 /\
    forall i (d : dict), stamped !! i = Some d ->
      let t1 := utc_clock w (clock_reads w + 2 * i) in
      let t2 := utc_clock w (clock_reads w + 2 * i + 1) in
      d !! "created_at" = Some (VDatetime t1) /\
      d !! "updated_at" = Some (VDatetime t2) /\
      (d !! "created_at" = d !! "updated_at" <-> t1 = t2).
Proof.
  intros Hdb Hcount. do 2 eexists. split_and!.
  - by apply ensure_seed_projects_empty.
  - done.
  - done.
  - by rewrite stamp_from_length.
  - intros i d Hd t1 t2.
    destruct (stamp_from_lookup _ _ _ _ _ Hd) as [Hc Hu].
    split_and!; [done | done |].
    rewrite Hc, Hu. subst t1 t2. split; congruence.
Qed.

Lemma seed_timestamps_two_readings_witness :
  exists stamped w',
    ensure_seed_projects (mem_world mem_empty) = (Ok tt, w') /\
    clock_reads w' = 8 /\
    length stamped = 4 /\
    db w' = Some (insert_many "projects" stamped mem_empty).
Proof.
  destruct (seed_timestamps_two_readings mem_store mem_Store (mem_world mem_empty) mem_empty)
    as (stamped & w' & H1 & H2 & H3 & H4 & _); [reflexivity | reflexivity |].
  exists stamped, w'. split; [exact H1|]. split; [exact H3|]. split; [exact H4 | exact H2].
Defined.

(** ** Creation *)

Section Creation.
Context {S : Type} `{Store S}.
Variable create_document : string -> BaseModel -> M S string.

(** The insert succeeded, the identifier reads back as [oid], and the
    lookup of [oid] finds nothing: [serialize_doc(None)] raises. *)
Lemma create_in_lookup_miss (c : string) (data : BaseModel)
    (w w1 : world S) (inserted_id : string) (oid : ObjectId) (s1 : S) :
  create_document c data w = (Ok inserted_id, w1) ->
  db w1 = Some s1 ->
  ObjectId_of_str inserted_id = Ok oid ->
  find_one c oid s1 = None ->
  create_in create_document c data w = (Raise TypeError, log (FindOne c oid) w1).
Proof.
  intros Hins Hdb Hoid Hmiss.
  unfold create_in, bind, db_getitem, lift, call_find_one.
  rewrite Hins, Hdb, Hoid, Hdb, Hmiss. reflexivity.
Qed.
End Creation.

(** C6: when the insert succeeded and the lookup by the identifier it
    returned finds no document, [create_project] and [submit_contact] end
    with an exception the handler does not catch, which the framework
    answers with status 500 and not with the status of a validation error;
    no record is returned. *)
Theorem create_lookup_miss_is_internal_error
    (S : Type) (HS : Store S) (create_document : string -> BaseModel -> M S string)
    (c : string) (data : BaseModel)
    (w w1 : world S) (inserted_id : string) (oid : ObjectId) (s1 : S) :
  create_document c data w = (Ok inserted_id, w1) ->
  db w1 = Some s1 ->
  ObjectId_of_str inserted_id = Ok oid ->
  find_one c oid s1 = None ->
  (forall project, c = "projects" -> data = MProject project ->
     create_project create_document project w =
       (Raise TypeError, log (FindOne "projects" oid) w1)) /\
  (forall contact, c = "contacts" -> data = MContact contact ->
     submit_contact create_document contact w =
       (Raise TypeError, log (FindOne "contacts" oid) w1)) /\
  (forall out w', create_in create_document c data w <> (Ok out, w')) /\
  http_status 201 (create_in create_document c data w).1 = 500 /\
  http_status 201 (create_in create_document c data w).1 <> validation_error_status.
Proof.
  intros Hins Hdb Hoid Hmiss.
  pose proof (create_in_lookup_miss create_document c data w w1 inserted_id oid s1
                Hins Hdb Hoid Hmiss) as Hraise.
  split_and!.
  - intros project -> ->. exact Hraise.
  - intros contact -> ->. exact Hraise.
  - intros out w'. by rewrite Hraise.
  - by rewrite Hraise.
  - by rewrite Hraise.
Qed.

Lemma create_lookup_miss_is_internal_error_witness :
  let project := mk_ProjectIn "Pavilion" "p.jpg" None (Some "2024") None None in
  let create := spec_create_document (H := lossy_Store) in
  let w1 := (create "projects" (MProject project) lossy_world).2 in
  create_project (H := lossy_Store) create project lossy_world =
    (Raise TypeError, log (FindOne "projects" 0%N) w1) /\
  http_status 201 (create_project (H := lossy_Store) create project lossy_world).1 = 500.
Proof.
  intros project create w1.
  destruct (create_lookup_miss_is_internal_error N lossy_Store create
              "projects" (MProject project) lossy_world w1
              (str_ObjectId 0%N) 0%N 1%N)
    as (Hproject & _ & _ & Hstatus & _); try (vm_compute; reflexivity).
  split; [by apply Hproject | exact Hstatus].
Defined.

Lemma str_ObjectId_nonempty (o : ObjectId) : str_ObjectId o <> "".
Proof.
  unfold str_ObjectId. change 24 with (Datatypes.S 23). cbn [pad_hex].
  destruct (pad_hex 23 (o / 16)); discriminate.
Qed.


(** ** More on the serializer *)

(** X1: [serialize_doc] leaves every key other than [_id], [id],
    [created_at] and [updated_at] as it found it. *)
Theorem serialize_doc_other_keys (d : dict) (k : string) :
  k <> "_id" -> k <> "id" -> k <> "created_at" -> k <> "updated_at" ->
  serialize_doc d !! k = d !! k.
Proof.
  intros H1 H2 H3 H4.
  by rewrite serialize_doc_lookup_ne, id_step_lookup_ne.
Qed.

Lemma serialize_doc_other_keys_witness :
  let d : dict := <["_id" := VObjectId 7%N]> {["tags" := VList ["Studio"]]} in
  serialize_doc d !! "tags" = Some (VList ["Studio"]).
Proof.
  intros d. rewrite (serialize_doc_other_keys d "tags"); [reflexivity | done..].
Defined.

(** X2: on [created_at] and on [updated_at], [serialize_doc] turns a
    datetime into its [isoformat()] string, keeps any other value, a string
    or [None] for instance, and leaves an absent key absent. *)
Theorem serialize_doc_timestamps (d : dict) (k : string) :
  k = "created_at" \/ k = "updated_at" ->
  (forall t, d !! k = Some (VDatetime t) ->
             serialize_doc d !! k = Some (VStr (isoformat t))) /\
  (forall v, d !! k = Some v -> has_isoformat v = false ->
             serialize_doc d !! k = Some v) /\
  (d !! k = None -> serialize_doc d !! k = None).
Proof.
  intros Hk.
  assert (Hl : serialize_doc d !! k = call_isoformat <$> d !! k).
  { rewrite serialize_doc_unfold. destruct Hk as [-> | ->].
    - by rewrite iso_field_lookup_ne, iso_field_lookup_eq, id_step_lookup_ne.
    - by rewrite iso_field_lookup_eq, iso_field_lookup_ne, id_step_lookup_ne. }
  rewrite Hl. split_and!.
  - by intros t ->.
  - intros v -> Hv. by destruct v.
  - by intros ->.
Qed.

Lemma serialize_doc_timestamps_witness :
  let d : dict := {["created_at" := VDatetime (ticking_clock 7)]} in
  serialize_doc d !! "created_at" = Some (VStr "2024-01-02T03:04:05.000007+00:00").
Proof.
  intros d.
  apply (proj1 (serialize_doc_timestamps d "created_at" (or_introl eq_refl))
           (ticking_clock 7)).
  reflexivity.
Defined.

Lemma iso_field_dom k (d : dict) : dom (iso_field k d) = dom d.
Proof.
  unfold iso_field. destruct (d !! k) as [v|] eqn:E; [|done].
  destruct (has_isoformat v); [|done].
  by apply dom_insert_lookup_L.
Qed.

(** X3: the keys of the serialized document are the keys of the input,
    with [_id] replaced by [id] when [_id] is bound to a value other than
    [None]; no other key appears or disappears. *)
Theorem serialize_doc_dom (d : dict) :
  dom (serialize_doc d) =
    match d !! "_id" with
    | Some VNone | None => dom d
    | Some _ => {["id"]} ∪ (dom d ∖ {["_id"]})
    end.
Proof.
  rewrite serialize_doc_unfold, !iso_field_dom. unfold id_step.
  destruct (d !! "_id") as [[]|]; try done;
    by rewrite dom_insert_L, dom_delete_L.
Qed.

(** ** Identifiers and their strings *)

Lemma str_length_app (s1 s2 : string) :
  String.length (s1 ++ s2) = String.length s1 + String.length s2.
Proof. induction s1 as [|c s1 IH]; simpl; [done|]. by rewrite IH. Qed.

Lemma pad_hex_length (n : nat) (x : N) : String.length (pad_hex n x) = n.
Proof.
  revert x. induction n as [|n IH]; intros x; simpl; [done|].
  rewrite str_length_app, IH. simpl. lia.
Qed.

Lemma parse_hex_app (acc : N) (s1 s2 : string) :
  parse_hex acc (s1 ++ s2) =
    match parse_hex acc s1 with
    | Some a => parse_hex a s2
    | None => None
    end.
Proof.
  revert acc. induction s1 as [|c s1 IH]; intros acc; simpl; [done|].
  destruct (hex_value c); [apply IH | done].
Qed.

Lemma hex_value_hex_char (d : N) : (d < 16)%N -> hex_value (hex_char d) = Some d.
Proof.
  intros Hd.
  destruct d as [|p]; [reflexivity|].
  do 4 (destruct p as [p|p|]; try reflexivity; try lia).
Qed.

Lemma parse_hex_pad_hex (n : nat) (acc x : N) :
  parse_hex acc (pad_hex n x) = Some (acc * 16 ^ N.of_nat n + x mod 16 ^ N.of_nat n)%N.
Proof.
  revert acc x. induction n as [|n IH]; intros acc x.
  - simpl. f_equal. rewrite N.mod_1_r. lia.
  - cbn [pad_hex]. rewrite parse_hex_app, IH. cbn [parse_hex].
    rewrite hex_value_hex_char by (apply N.mod_lt; lia).
    f_equal. rewrite Nat2N.inj_succ, N.pow_succ_r'.
    rewrite (N.Div0.mod_mul_r x 16). lia.
Qed.

Lemma ObjectId_of_str_str (o : ObjectId) :
  (o < 2 ^ 96)%N -> ObjectId_of_str (str_ObjectId o) = Ok o.
Proof.
  intros Ho. unfold ObjectId_of_str, str_ObjectId.
  rewrite pad_hex_length. cbn [Nat.eqb].
  rewrite parse_hex_pad_hex. f_equal.
  change (16 ^ N.of_nat 24)%N with (2 ^ 96)%N.
  rewrite N.mod_small by done. lia.
Qed.

(** X4: an identifier of twelve bytes prints as 24 characters and reads
    back from them: [ObjectId(str(o)) = o]. *)
Theorem ObjectId_str_roundtrip (o : ObjectId) :
  (o < 2 ^ 96)%N ->
  String.length (str_ObjectId o) = 24 /\
  ObjectId_of_str (str_ObjectId o) = Ok o.
Proof.
  intros Ho. split; [apply pad_hex_length | by apply ObjectId_of_str_str].
Qed.

Lemma ObjectId_str_roundtrip_witness :
  String.length (str_ObjectId 48879%N) = 24 /\
  ObjectId_of_str (str_ObjectId 48879%N) = Ok 48879%N.
Proof. apply ObjectId_str_roundtrip. vm_compute. reflexivity. Defined.

(** ** More on the listing *)

Section SortMore.
Context {A : Type}.
Variable key : A -> result Z.

Lemma rmap_ok_Forall (d : list A) (keys : list Z) :
  rmap key d = Ok keys -> Forall (fun a => is_ok (key a) = true) d.
Proof.
  revert keys. induction d as [|a d IH]; intros keys; simpl; [constructor|].
  destruct (key a) eqn:Ea; simpl; [|done].
  destruct (rmap key d) eqn:Ed; simpl; [|done].
  intros _. constructor; [by rewrite Ea | by eapply IH].
Qed.

(** Whatever [reverse] is, a sort that ends well returns a rearrangement. *)
Lemma list_sort_ok_perm (rv : bool) (d out : list A) :
  list_sort key rv d = Ok out -> out ≡ₚ d.
Proof.
  unfold list_sort. destruct (rmap key d) as [keys|] eqn:Ek; simpl; [|done].
  destruct (rmap_zip key d keys Ek) as [_ Hsnd].
  intros [= <-]. destruct rv.
  - by rewrite reverse_Permutation, sort_keyed_perm, reverse_Permutation, Hsnd.
  - by rewrite sort_keyed_perm, Hsnd.
Qed.

Lemma sort_keyed_id (l : list (Z * A)) :
  StronglySorted key_le l -> sort_keyed l = l.
Proof.
  induction 1 as [|x l Hs IH Hx]; simpl; [done|].
  rewrite IH. destruct l as [|y l]; simpl; [done|].
  apply Forall_cons in Hx as [Hxy _]. unfold key_le in Hxy.
  apply Z.leb_le in Hxy. by rewrite Hxy.
Qed.

Lemma StronglySorted_fmap_inv {B} (f : B -> A) (R : relation A) (l : list B) :
  StronglySorted R (f <$> l) -> StronglySorted (fun a b => R (f a) (f b)) l.
Proof.
  induction l as [|a l IH]; [constructor|].
  rewrite fmap_cons. intros [Ha Hl]%StronglySorted_cons.
  constructor; [by apply IH|].
  rewrite Forall_fmap in Ha. exact Ha.
Qed.

(** Sorting in descending order a list that is in descending order of
    the key already changes nothing. *)
Lemma list_sort_sorted_id (d : list A) :
  StronglySorted (key_desc key) d -> Forall (fun a => is_ok (key a) = true) d ->
  list_sort key true d = Ok d.
Proof.
  intros Hs Hok. destruct (rmap_total key d Hok) as [keys Hkeys].
  destruct (rmap_zip key d keys Hkeys) as [Hall Hsnd].
  unfold list_sort. rewrite Hkeys. simpl. f_equal.
  rewrite sort_keyed_id, reverse_involutive; [done|].
  rewrite <- Hsnd in Hs. apply StronglySorted_fmap_inv in Hs.
  apply (StronglySorted_on (fun p => key p.2 = Ok p.1) (flip (flip key_le)) key_le);
    [done | by apply Forall_reverse |].
  apply StronglySorted_reverse.
  eapply StronglySorted_on; [|exact Hall|exact Hs].
  intros a b Ha Hb (ka & kb & Hka & Hkb & Hle).
  rewrite Ha in Hka. rewrite Hb in Hkb. simplify_eq. by unfold flip, key_le.
Qed.
End SortMore.

Lemma sort_docs_perm (docs : list dict) : sort_docs docs ≡ₚ docs.
Proof.
  unfold sort_docs. destruct (list_sort year_key true docs) eqn:E; [|done].
  by eapply list_sort_ok_perm.
Qed.

(** X5: whatever the years are, once the documents are fetched
    [list_projects] returns a value, and that value is a rearrangement of
    the serialized fetched documents: no document is lost or repeated. *)
Theorem list_projects_returns_all
    (S : Type) (HS : Store S) (get_documents : string -> M S (list dict))
    (w w' : world S) (docs : list dict) :
  fetch_projects get_documents w = (Ok docs, w') ->
  exists out,
    list_projects get_documents w = (Ok out, w') /\
    out ≡ₚ serialize_doc <$> docs /\
    length out = length docs.
Proof.
  intros Hfetch. exists (serialize_doc <$> sort_docs docs). split_and!.
  - by apply list_projects_fetched.
  - by rewrite sort_docs_perm.
  - by rewrite length_fmap, sort_docs_perm.
Qed.

Lemma list_projects_returns_all_witness :
  let w := mem_world mixed_years_store in
  exists out,
    list_projects spec_get_documents w = (Ok out, (list_projects spec_get_documents w).2) /\
    out ≡ₚ serialize_doc <$> find "projects" mixed_years_store /\
    length out = length (find "projects" mixed_years_store).
Proof.
  intros w.
  apply (list_projects_returns_all mem_store mem_Store spec_get_documents w).
  vm_compute. reflexivity.
Defined.

(** X6: the sort of [list_projects] does not need the years to be strings:
    as long as every fetched document has an integer to be ordered by, its
    [year] being absent, an integer, a boolean or a string that reads as an
    integer, the output is in descending order of that integer, documents of
    one value in the order they were fetched. *)
Theorem list_projects_sorted_any_coercible
    (S : Type) (HS : Store S) (get_documents : string -> M S (list dict))
    (w w' : world S) (docs : list dict) :
  fetch_projects get_documents w = (Ok docs, w') ->
  Forall (fun d => exists n, year_value d n) docs ->
  exists out,
    list_projects get_documents w = (Ok out, w') /\
    StronglySorted year_desc out /\
    (forall k, filter (fun d => year_key d = Ok k) out =
               serialize_doc <$> filter (fun d => year_key d = Ok k) docs) /\
    (forall (d : dict) (n : Z), year_key d = Ok n <-> year_value d n).
Proof.
  intros Hfetch Hall.
  destruct (sort_docs_sorted docs Hall) as (Hp & Hsorted & Hst).
  exists (serialize_doc <$> sort_docs docs). split_and!; [|done|done|].
  - by apply list_projects_fetched.
  - apply year_key_spec.
Qed.

Lemma year_coercible_b_spec (docs : list dict) :
  forallb year_coercible_b docs = true ->
  Forall (fun d => exists n, year_value d n) docs.
Proof.
  induction docs as [|d docs IH]; simpl; [constructor|].
  intros [Hd Hdocs]%andb_prop. constructor; [|by apply IH].
  unfold year_coercible_b in Hd. destruct (year_key d) as [n|] eqn:E; [|done].
  exists n. by apply year_key_spec.
Qed.

Lemma list_projects_sorted_any_coercible_witness :
  let w := mem_world mixed_years_store in
  exists out,
    list_projects spec_get_documents w = (Ok out, (list_projects spec_get_documents w).2) /\
    StronglySorted year_desc out /\
    titles_of (filter (fun d => year_key d = Ok 2024%Z) out) =
      [Some (VStr "b"); Some (VStr "e")].
Proof.
  intros w.
  destruct (list_projects_sorted_any_coercible mem_store mem_Store spec_get_documents w
              (list_projects spec_get_documents w).2 (find "projects" mixed_years_store))
    as (out & Hout & Hsorted & Hst & _).
  - vm_compute. reflexivity.
  - apply year_coercible_b_spec. vm_compute. reflexivity.
  - exists out. split; [exact Hout|]. split; [exact Hsorted|].
    rewrite Hst. vm_compute. reflexivity.
Defined.

(** X7: sorting twice is sorting once: [sort_docs] applied to its own
    outcome returns it unchanged, whether the first sort went through or
    was given up. *)
Theorem sort_docs_idempotent (docs : list dict) :
  sort_docs (sort_docs docs) = sort_docs docs.
Proof.
  unfold sort_docs at 2.
  destruct (list_sort year_key true docs) as [sorted|e] eqn:E.
  - assert (Hok : Forall (fun d => is_ok (year_key d) = true) docs).
    { unfold list_sort in E. destruct (rmap year_key docs) eqn:Ek; [|done].
      by eapply rmap_ok_Forall. }
    destruct (list_sort_reverse_spec year_key docs Hok) as (out & Hout & Hp & Hs & _).
    rewrite E in Hout. injection Hout as <-.
    unfold sort_docs. rewrite E, list_sort_sorted_id; [done | done |].
    by rewrite Hp.
  - unfold sort_docs. by rewrite E.
Qed.

Lemma ensure_seed_projects_ok {S} `{Store S} (w : world S) :
  (ensure_seed_projects w).1 = Ok tt.
Proof.
  unfold ensure_seed_projects. destruct (db w) as [s|] eqn:Hdb; [|done].
  unfold bind, call_count_documents. rewrite Hdb.
  destruct (Nat.eqb (count_documents "projects" s) 0); [|done].
  rewrite stamp_seed_spec. unfold call_insert_many. simpl. by rewrite Hdb.
Qed.

(** X8: the [try] of [list_projects] covers the sort only: an exception of
    [get_documents] is not swallowed, it leaves [list_projects] as it is,
    after the seeding has run. *)
Theorem list_projects_fetch_error
    (S : Type) (HS : Store S) (get_documents : string -> M S (list dict))
    (w w' : world S) (e : exn) :
  get_documents "projects" (ensure_seed_projects w).2 = (Raise e, w') ->
  list_projects get_documents w = (Raise e, w').
Proof.
  intros Hget. unfold list_projects, bind.
  pose proof (ensure_seed_projects_ok w) as Hok.
  destruct (ensure_seed_projects w) as [r w1]. simpl in *. subst r.
  by rewrite Hget.
Qed.

Lemma list_projects_fetch_error_witness :
  let w := mem_world mem_empty in
  list_projects failing_get_documents w =
    (Raise DatabaseError, (ensure_seed_projects w).2) /\
  length (find "projects" (default mem_empty (db (ensure_seed_projects w).2))) = 4.
Proof.
  intros w. split.
  - by apply (list_projects_fetch_error mem_store mem_Store failing_get_documents w).
  - vm_compute. reflexivity.
Defined.

(** ** What the listing hands out *)

Lemma serialize_doc_public (d : dict) :
  (serialize_doc d !! "_id" = None \/ serialize_doc d !! "_id" = Some VNone) /\
  (forall k v, k = "created_at" \/ k = "updated_at" ->
               serialize_doc d !! k = Some v -> has_isoformat v = false).
Proof.
  split.
  - rewrite serialize_doc_lookup_ne by done. apply id_step_id_gone.
  - intros k v Hk. by apply serialize_doc_timestamp_plain.
Qed.

(** X9: whatever was fetched, no record that [list_projects] returns
    carries an identifier object under [_id] ([_id] is gone, or was [None]
    from the start) nor a datetime object under [created_at] or
    [updated_at]. *)
Theorem list_projects_public_records
    (S : Type) (HS : Store S) (get_documents : string -> M S (list dict))
    (w w' : world S) (docs : list dict) :
  fetch_projects get_documents w = (Ok docs, w') ->
  exists out,
    list_projects get_documents w = (Ok out, w') /\
    Forall (fun r : dict =>
              (r !! "_id" = None \/ r !! "_id" = Some VNone) /\
              (forall k v, k = "created_at" \/ k = "updated_at" ->
                           r !! k = Some v -> has_isoformat v = false)) out.
Proof.
  intros Hfetch. exists (serialize_doc <$> sort_docs docs). split.
  - by apply list_projects_fetched.
  - apply Forall_fmap, Forall_forall. intros d _. apply serialize_doc_public.
Qed.

Lemma list_projects_public_records_witness :
  let w := mem_world (years_store ["2021"; "2024"]) in
  exists out,
    list_projects spec_get_documents w = (Ok out, (list_projects spec_get_documents w).2) /\
    Forall (fun r : dict => r !! "_id" = None \/ r !! "_id" = Some VNone) out.
Proof.
  intros w.
  destruct (list_projects_public_records mem_store mem_Store spec_get_documents w
              (list_projects spec_get_documents w).2
              (find "projects" (years_store ["2021"; "2024"])))
    as (out & Hout & Hall).
  - vm_compute. reflexivity.
  - exists out. split; [exact Hout|].
    eapply Forall_impl; [exact Hall|]. by intros r [Hr _].
Defined.

(** ** More on the creation *)

Section CreationMore.
Context {S : Type} `{Store S}.
Variable create_document : string -> BaseModel -> M S string.

Lemma create_in_insert_error (c : string) (data : BaseModel)
    (w w1 : world S) (e : exn) :
  create_document c data w = (Raise e, w1) ->
  create_in create_document c data w = (Raise e, w1).
Proof. intros Hins. unfold create_in, bind. by rewrite Hins. Qed.


Lemma create_in_found (c : string) (data : BaseModel)
    (w w1 : world S) (inserted_id : string) (oid : ObjectId) (s1 : S) (d : dict) :
  create_document c data w = (Ok inserted_id, w1) ->
  db w1 = Some s1 ->
  ObjectId_of_str inserted_id = Ok oid ->
  find_one c oid s1 = Some d ->
  create_in create_document c data w = (Ok (serialize_doc d), log (FindOne c oid) w1).
Proof.
  intros Hins Hdb Hoid Hfound.
  unfold create_in, bind, db_getitem, lift, call_find_one.
  by rewrite Hins, Hdb, Hoid, Hdb, Hfound.
Qed.
End CreationMore.

Lemma serialize_doc_objectid (d : dict) (o : ObjectId) :
  d !! "_id" = Some (VObjectId o) ->
  serialize_doc d !! "id" = Some (VStr (str_ObjectId o)) /\
  serialize_doc d !! "_id" = None.
Proof.
  intros Hid. rewrite !serialize_doc_lookup_ne by done.
  unfold id_step. rewrite Hid.
  by rewrite lookup_insert_eq, lookup_insert_ne, lookup_delete_eq.
Qed.

(** X10: an exception of [create_document] leaves [create_project] and
    [submit_contact] as it is, in the state [create_document] left: no
    lookup is made and nothing is returned. *)
Theorem create_insert_error_propagates
    (S : Type) (HS : Store S) (create_document : string -> BaseModel -> M S string)
    (c : string) (data : BaseModel) (w w1 : world S) (e : exn) :
  create_document c data w = (Raise e, w1) ->
  create_in create_document c data w = (Raise e, w1) /\
  (forall project, c = "projects" -> data = MProject project ->
     create_project create_document project w = (Raise e, w1)) /\
  (forall contact, c = "contacts" -> data = MContact contact ->
     submit_contact create_document contact w = (Raise e, w1)).
Proof.
  intros Hins.
  pose proof (create_in_insert_error create_document c data w w1 e Hins) as Hr.
  split_and!; [done | by intros ? -> -> | by intros ? -> ->].
Qed.

Lemma create_insert_error_propagates_witness :
  let w : world mem_store := mk_world None ticking_clock 0 [] in
  submit_contact spec_create_document ada w = (Raise DatabaseError, w).
Proof.
  intros w.
  apply (create_insert_error_propagates mem_store mem_Store spec_create_document
           "contacts" (MContact ada) w w DatabaseError); reflexivity.
Defined.



(** X12: when [create_document] returns the printed form of a twelve-byte
    identifier and the store finds a document under that identifier, the
    creation makes exactly that one lookup and returns the serialized
    document; if the document carries the identifier as its [_id], the [id]
    of the record is the very string [create_document] returned, and the
    record has no [_id]. *)
Theorem create_returns_found_document
    (S : Type) (HS : Store S) (create_document : string -> BaseModel -> M S string)
    (c : string) (data : BaseModel) (w w1 : world S) (o : ObjectId) (s1 : S) (d : dict) :
  create_document c data w = (Ok (str_ObjectId o), w1) ->
  (o < 2 ^ 96)%N ->
  db w1 = Some s1 ->
  find_one c o s1 = Some d ->
  create_in create_document c data w = (Ok (serialize_doc d), log (FindOne c o) w1) /\
  (d !! "_id" = Some (VObjectId o) ->
   serialize_doc d !! "id" = Some (VStr (str_ObjectId o)) /\
   serialize_doc d !! "_id" = None).
Proof.
  intros Hins Ho Hdb Hfound. split.
  - apply (create_in_found create_document c data w w1 (str_ObjectId o) o s1 d);
      [done | done | | done].
    by apply ObjectId_of_str_str.
  - intros Hid. by apply serialize_doc_objectid.
Qed.

Lemma create_returns_found_document_witness :
  let w := mem_world (years_store ["2020"; "2023"]) in
  let w1 := (spec_create_document "contacts" (MContact ada) w).2 in
  let stored : dict :=
    <["_id" := VObjectId 2%N]>
      (<["updated_at" := VDatetime (ticking_clock 0)]>
         (<["created_at" := VDatetime (ticking_clock 0)]> (model_dump (MContact ada)))) in
  submit_contact spec_create_document ada w =
    (Ok (serialize_doc stored), log (FindOne "contacts" 2%N) w1) /\
  serialize_doc stored !! "id" = Some (VStr (str_ObjectId 2%N)).
Proof.
  intros w w1 stored.
  destruct (create_returns_found_document mem_store mem_Store spec_create_document
              "contacts" (MContact ada) w w1 2%N
              (default mem_empty (db w1)) stored) as [Hc Hid];
    try (vm_compute; reflexivity).
  split; [exact Hc|]. apply Hid. reflexivity.
Defined.

Lemma serialize_doc_timestamp_lookup (d : dict) (k : string) :
  k = "created_at" \/ k = "updated_at" ->
  serialize_doc d !! k = call_isoformat <$> d !! k.
Proof.
  rewrite serialize_doc_unfold. intros [-> | ->].
  - by rewrite iso_field_lookup_ne, iso_field_lookup_eq, id_step_lookup_ne.
  - by rewrite iso_field_lookup_eq, iso_field_lookup_ne, id_step_lookup_ne.
Qed.

Lemma find_app_last {A} (f : A -> bool) (l : list A) (x : A) :
  Forall (fun y => f y = false) l -> f x = true -> List.find f (l ++ [x])%list = Some x.
Proof.
  intros Hall Hx. induction Hall as [|y l Hy _ IH]; simpl; [by rewrite Hx|].
  by rewrite Hy.
Qed.

Lemma mem_wf_empty : mem_wf mem_empty.
Proof.
  split; [vm_compute; reflexivity|].
  intros c d Hd. unfold mem_docs in Hd. simpl in Hd.
  rewrite lookup_empty in Hd. simpl in Hd. by apply elem_of_nil in Hd.
Qed.

Lemma mem_docs_insert_one_ne c c' d s :
  c <> c' -> mem_docs c' (mem_insert_one c d s).2 = mem_docs c' s.
Proof. intros Hne. unfold mem_docs. simpl. by rewrite lookup_insert_ne. Qed.

(** An insert keeps the store among those the service can reach, as long as
    the counter still fits in twelve bytes. *)
Lemma mem_wf_insert_one c d s :
  mem_wf s -> (N.succ (next_id s) < 2 ^ 96)%N -> mem_wf (mem_insert_one c d s).2.
Proof.
  intros [Hn Hall] Hsucc. split; [done|].
  intros c' d' Hd'. cbn [mem_insert_one snd next_id].
  destruct (decide (c = c')) as [<- | Hne].
  - rewrite mem_docs_insert_one in Hd'. apply elem_of_app in Hd' as [Hold | Hnew].
    + destruct (Hall c d' Hold) as (o & Ho & Hlt). exists o. split; [done | lia].
    + apply list_elem_of_singleton in Hnew as ->.
      exists (next_id s). rewrite lookup_insert_eq. split; [done | lia].
  - rewrite mem_docs_insert_one_ne in Hd' by done.
    destruct (Hall c' d' Hd') as (o & Ho & Hlt). exists o. split; [done | lia].
Qed.

Lemma mem_wf_fresh c s :
  mem_wf s -> Forall (fun d => has_id (next_id s) d = false) (mem_docs c s).
Proof.
  intros [_ Hall]. apply Forall_forall. intros d Hd.
  destruct (Hall c d Hd) as (o & Ho & Hlt). unfold has_id. rewrite Ho.
  apply N.eqb_neq. lia.
Qed.

(** The lookup by the identifier the store has just assigned finds the
    document that was inserted, and no older one. *)
Lemma mem_find_one_inserted c d s :
  mem_wf s ->
  find_one c (next_id s) (mem_insert_one c d s).2 =
    Some (<["_id" := VObjectId (next_id s)]> d).
Proof.
  intros Hwf. cbn [find_one mem_Store]. rewrite mem_docs_insert_one.
  apply find_app_last; [by apply mem_wf_fresh|].
  unfold has_id. by rewrite lookup_insert_eq, N.eqb_refl.
Qed.

Lemma spec_create_document_mem (c : string) (data : BaseModel)
    (s : mem_store) (clock : nat -> datetime) (r : nat) (cs : list call) :
  let d := <["updated_at" := VDatetime (clock r)]>
             (<["created_at" := VDatetime (clock r)]> (model_dump data)) in
  spec_create_document c data (mk_world (Some s) clock r cs) =
    (Ok (str_ObjectId (next_id s)),
     mk_world (Some (mem_insert_one c d s).2) clock (Datatypes.S r)
              (cs ++ [InsertOne c d])).
Proof. reflexivity. Qed.

(** What the serializer makes of a freshly stored document. *)
Lemma serialize_stored_document (data : BaseModel) (t : datetime) (o : ObjectId) :
  model_dump data !! "_id" = None ->
  serialize_doc (stored_document data t o) =
    <["updated_at" := VStr (isoformat t)]>
      (<["created_at" := VStr (isoformat t)]>
         (<["id" := VStr (str_ObjectId o)]> (model_dump data))).
Proof.
  intros Hid. apply map_eq. intros k.
  destruct (decide (k = "updated_at")) as [-> | Hu];
    [|destruct (decide (k = "created_at")) as [-> | Hc]].
  - rewrite lookup_insert_eq.
    rewrite serialize_doc_timestamp_lookup by (by right).
    unfold stored_document. rewrite lookup_insert_ne by done.
    by rewrite lookup_insert_eq.
  - rewrite lookup_insert_ne, lookup_insert_eq by done.
    rewrite serialize_doc_timestamp_lookup by (by left).
    unfold stored_document. rewrite !lookup_insert_ne by done.
    by rewrite lookup_insert_eq.
  - rewrite !(lookup_insert_ne _ _ k) by done.
    rewrite serialize_doc_lookup_ne by done.
    unfold id_step, stored_document. rewrite lookup_insert_eq. cbn [py_str].
    rewrite delete_insert_eq, delete_id by (by rewrite !lookup_insert_ne).
    destruct (decide (k = "id")) as [-> | Hi].
    + by rewrite !lookup_insert_eq.
    + by rewrite !lookup_insert_ne by done.
Qed.

(** C7: submitting a contact to a store the service can reach, empty or
    not, returns the record of that very contact: its [id] is the printed
    form of the identifier the store assigned, a non-empty string, its
    [name], [email] and [message] are the input values, it has no [_id], and
    all its values are strings, so the identifier and the timestamps are in
    string form; the store holds one contact more.  Submitting Ada,
    ada@example.com, hi to a store that holds a message of Bob returns Ada's
    record. *)
Theorem submit_contact_returns_public_record :
  (forall (s : mem_store) (data : ContactIn)
          (clock : nat -> datetime) (r : nat) (cs : list call),
     mem_wf s ->
     exists (out : dict) (w' : world mem_store) (s' : mem_store),
       submit_contact spec_create_document data (mk_world (Some s) clock r cs) =
         (Ok out, w') /\
       out !! "id" = Some (VStr (str_ObjectId (next_id s))) /\
       str_ObjectId (next_id s) <> "" /\
       out !! "name" = Some (VStr (name data)) /\
       out !! "email" = Some (VStr (email data)) /\
       out !! "message" = Some (VStr (message data)) /\
       out !! "_id" = None /\
       map_Forall (fun _ v => is_string v) out /\
       db w' = Some s' /\
       find "contacts" s' =
         (find "contacts" s ++
            [stored_document (MContact data) (clock r) (next_id s)])%list) /\
  (exists w',
     submit_contact spec_create_document ada (mem_world store_with_bob) =
       (Ok (list_to_map
              [("id", VStr "000000000000000000000001");
               ("name", VStr "Ada"); ("email", VStr "ada@example.com");
               ("message", VStr "hi");
               ("created_at", VStr "2024-01-02T03:04:05+00:00");
               ("updated_at", VStr "2024-01-02T03:04:05+00:00")]), w')).
Proof.
  split.
  - intros s [n e m] clock r cs Hwf.
    set (data := MContact (mk_ContactIn n e m)).
    set (d := <["updated_at" := VDatetime (clock r)]>
                (<["created_at" := VDatetime (clock r)]> (model_dump data))).
    set (s' := (mem_insert_one "contacts" d s).2).
    set (w1 := mk_world (Some s') clock (Datatypes.S r) (cs ++ [InsertOne "contacts" d])%list).
    assert (Hcreate :
      submit_contact spec_create_document (mk_ContactIn n e m)
        (mk_world (Some s) clock r cs) =
        (Ok (serialize_doc (stored_document data (clock r) (next_id s))),
         log (FindOne "contacts" (next_id s)) w1)).
    { apply (create_in_found spec_create_document "contacts" data _ w1
               (str_ObjectId (next_id s)) (next_id s) s').
      - apply spec_create_document_mem.
      - done.
      - apply ObjectId_of_str_str. apply Hwf.
      - by apply mem_find_one_inserted. }
    rewrite serialize_stored_document in Hcreate by reflexivity.
    eexists _, _, s'. split; [exact Hcreate|]. split_and!.
    + rewrite !lookup_insert_ne by done. by rewrite lookup_insert_eq.
    + apply str_ObjectId_nonempty.
    + rewrite !lookup_insert_ne by done. reflexivity.
    + rewrite !lookup_insert_ne by done. reflexivity.
    + rewrite !lookup_insert_ne by done. reflexivity.
    + rewrite !lookup_insert_ne by done. reflexivity.
    + repeat (apply map_Forall_insert_2; [by eexists|]).
      cbn [data model_dump list_to_map foldr uncurry fst snd].
      repeat (apply map_Forall_insert_2; [by eexists|]).
      apply map_Forall_empty.
    + done.
    + unfold s'. cbn [find mem_Store]. by rewrite mem_docs_insert_one.
  - exists (submit_contact spec_create_document ada (mem_world store_with_bob)).2.
    vm_compute. reflexivity.
Qed.

Lemma store_with_bob_wf : mem_wf store_with_bob.
Proof. apply mem_wf_insert_one; [apply mem_wf_empty | vm_compute; reflexivity]. Qed.

Lemma submit_contact_returns_public_record_witness :
  exists (out : dict) (w' : world mem_store),
    submit_contact spec_create_document ada (mem_world store_with_bob) = (Ok out, w') /\
    out !! "id" = Some (VStr (str_ObjectId 1%N)) /\
    out !! "name" = Some (VStr "Ada").
Proof.
  destruct (proj1 submit_contact_returns_public_record store_with_bob ada
              ticking_clock 0 [] store_with_bob_wf)
    as (out & w' & s' & Hsub & Hid & _ & Hname & _).
  exists out, w'. split; [exact Hsub|]. split; [exact Hid | exact Hname].
Defined.

(** ** More on the seeding *)

Lemma stamp_from_fields clock r (l : list dict) :
  Forall2 (fun d s : dict =>
             forall k, k <> "created_at" -> k <> "updated_at" -> d !! k = s !! k)
          (stamp_from clock r l) l.
Proof.
  revert r. induction l as [|s l IH]; intros r; simpl; constructor; [|apply IH].
  intros k H1 H2. by rewrite !lookup_insert_ne.
Qed.

(** X13: the records the seeding inserts are the four seed records with
    their own fields untouched: only [created_at] and [updated_at] are
    added. *)
Theorem seed_fields_preserved (S : Type) (HS : Store S) (w : world S) (s : S) :
  db w = Some s -> count_documents "projects" s = 0 ->
  exists stamped w',
    ensure_seed_projects w = (Ok tt, w') /\
    db w' = Some (insert_many "projects" stamped s) /\
    Forall2 (fun d s0 : dict =>
               forall k, k <> "created_at" -> k <> "updated_at" -> d !! k = s0 !! k)
            stamped seed /\
    Forall (fun d : dict => is_Some (d !! "created_at") /\ is_Some (d !! "updated_at")) stamped.
Proof.
  intros Hdb Hcount. do 2 eexists. split_and!.
  - by apply (ensure_seed_projects_empty w s).
  - done.
  - apply stamp_from_fields.
  - apply Forall_forall. intros d [i Hi]%list_elem_of_lookup.
    destruct (stamp_from_lookup _ _ _ _ _ Hi) as [-> ->]. by split.
Qed.

Lemma seed_fields_preserved_witness :
  exists stamped w',
    ensure_seed_projects (mem_world mem_empty) = (Ok tt, w') /\
    db w' = Some (insert_many "projects" stamped mem_empty) /\
    Forall2 (fun d s0 : dict => d !! "title" = s0 !! "title") stamped seed.
Proof.
  destruct (seed_fields_preserved mem_store mem_Store (mem_world mem_empty) mem_empty)
    as (stamped & w' & H1 & H2 & H3 & _); [reflexivity | reflexivity |].
  exists stamped, w'. split; [exact H1|]. split; [exact H2|].
  eapply Forall2_impl; [exact H3|]. intros d s0 Hk. by apply Hk.
Defined.

(** ** The diagnostic route *)

Section DiagnosticFacts.
Context {S : Type}.
Variable getenv : string -> option string.
Variable list_collection_names : S -> list string + string.
Local Abbreviation response := (test_database getenv list_collection_names).

Lemma test_database_none (w : world S) :
  db w = None ->
  response w !! "database" = Some (VStr "⚠️  Available but not initialized") /\
  response w !! "connection_status" = Some (VStr "Not Connected") /\
  response w !! "collections" = Some (VList []) /\
  response w !! "database_url" = Some VNone /\
  response w !! "database_name" = Some VNone.
Proof.
  intros Hdb. unfold test_database. rewrite Hdb. by split_and!.
Qed.

Lemma test_database_backend (w : world S) :
  response w !! "backend" = Some (VStr "✅ Running").
Proof.
  unfold test_database. destruct (db w) as [s|]; [|done].
  destruct (list_collection_names s); by simplify_map_eq.
Qed.

Lemma test_database_collections (w : world S) :
  exists l, response w !! "collections" = Some (VList l) /\ length l <= 10.
Proof.
  unfold test_database. destruct (db w) as [s|].
  - destruct (list_collection_names s) as [names|msg].
    + exists (take 10 names). split; [by simplify_map_eq|].
      rewrite length_take. lia.
    + exists []. split; [by simplify_map_eq | simpl; lia].
  - exists []. split; [done | simpl; lia].
Qed.

Lemma test_database_dom (w : world S) :
  dom (response w) =
    list_to_set ["backend"; "database"; "database_url"; "database_name";
                 "connection_status"; "collections"].
Proof.
  unfold test_database. destruct (db w) as [s|].
  - destruct (list_collection_names s);
      rewrite !dom_insert_L, dom_list_to_map_L; simpl; set_solver.
  - rewrite !dom_insert_L, dom_list_to_map_L; simpl; set_solver.
Qed.

Lemma test_database_error (w : world S) (s : S) (msg : string) :
  db w = Some s -> list_collection_names s = inr msg ->
  response w !! "database" = Some (VStr ("⚠️  Connected but Error: " ++ utf8_take 50 msg)) /\
  response w !! "connection_status" = Some (VStr "Connected") /\
  response w !! "collections" = Some (VList []).
Proof.
  intros Hdb Hl. unfold test_database. rewrite Hdb, Hl.
  split_and!; by simplify_map_eq.
Qed.

Lemma test_database_working (w : world S) (s : S) (names : list string) :
  db w = Some s -> list_collection_names s = inl names ->
  response w !! "database" = Some (VStr "✅ Connected & Working") /\
  response w !! "connection_status" = Some (VStr "Connected") /\
  response w !! "collections" = Some (VList (take 10 names)).
Proof.
  intros Hdb Hl. unfold test_database. rewrite Hdb, Hl.
  split_and!; by simplify_map_eq.
Qed.

Lemma test_database_env (w : world S) (s : S) :
  db w = Some s ->
  response w !! "database_url" =
    Some (VStr (if env_truthy getenv "DATABASE_URL" then "✅ Set" else "❌ Not Set")) /\
  response w !! "database_name" =
    Some (VStr (if env_truthy getenv "DATABASE_NAME" then "✅ Set" else "❌ Not Set")).
Proof.
  intros Hdb. unfold test_database. rewrite Hdb.
  destruct (list_collection_names s); split; by simplify_map_eq.
Qed.
End DiagnosticFacts.

(** X14: without a store ([db] is [None]) the diagnostic answers
    not connected, with no collections and the two configuration entries
    left at [None], whatever the environment holds. *)
Theorem test_database_unavailable
    (S : Type) (getenv : string -> option string)
    (list_collection_names : S -> list string + string) (w : world S) :
  db w = None ->
  let response := test_database getenv list_collection_names w in
  response !! "database" = Some (VStr "⚠️  Available but not initialized") /\
  response !! "connection_status" = Some (VStr "Not Connected") /\
  response !! "collections" = Some (VList []) /\
  response !! "database_url" = Some VNone /\
  response !! "database_name" = Some VNone.
Proof. intros Hdb. by apply test_database_none. Qed.

Lemma test_database_unavailable_witness :
  test_database (S := mem_store) (fun _ => Some "mongodb://h") (fun _ => inl ["projects"])
    (mk_world None ticking_clock 0 []) !! "database_url" = Some VNone.
Proof.
  apply (test_database_unavailable mem_store (fun _ => Some "mongodb://h")
           (fun _ => inl ["projects"]) (mk_world None ticking_clock 0 [])).
  reflexivity.
Defined.

(** X15: in every case the diagnostic answers with the same six keys, says
    the backend is running, and lists at most ten collections. *)
Theorem test_database_shape
    (S : Type) (getenv : string -> option string)
    (list_collection_names : S -> list string + string) (w : world S) :
  let response := test_database getenv list_collection_names w in
  dom response =
    list_to_set ["backend"; "database"; "database_url"; "database_name";
                 "connection_status"; "collections"] /\
  response !! "backend" = Some (VStr "✅ Running") /\
  exists l, response !! "collections" = Some (VList l) /\ length l <= 10.
Proof.
  split_and!;
    [apply test_database_dom | apply test_database_backend | apply test_database_collections].
Qed.

(** X16: when [list_collection_names] raises, the diagnostic does not
    fail: it reports the store as connected, lists no collection, and
    quotes the first 50 characters of the error, the whole of it when it has
    no more than 50 characters, however many bytes these take. *)
Theorem test_database_listing_error
    (S : Type) (getenv : string -> option string)
    (list_collection_names : S -> list string + string)
    (w : world S) (s : S) (msg : string) :
  db w = Some s -> list_collection_names s = inr msg ->
  let response := test_database getenv list_collection_names w in
  exists quoted,
    response !! "database" = Some (VStr ("⚠️  Connected but Error: " ++ quoted)) /\
    quoted = utf8_take 50 msg /\
    utf8_length quoted <= 50 /\
    (utf8_length msg <= 50 -> quoted = msg) /\
    (forall u, utf8_decode msg = Some u -> utf8_decode quoted = Some (take 50 u)) /\
    response !! "connection_status" = Some (VStr "Connected") /\
    response !! "collections" = Some (VList []).
Proof.
  intros Hdb Hl response.
  destruct (test_database_error getenv list_collection_names w s msg Hdb Hl)
    as (H1 & H2 & H3).
  exists (utf8_take 50 msg). split_and!; try done.
  - apply utf8_take_length.
  - apply utf8_take_all.
  - intros u Hu. by apply (utf8_decode_take (String.length msg)).
Qed.

Lemma test_database_listing_error_witness :
  let response :=
    test_database (fun _ => None) (fun _ : mem_store => inr accented_message)
      (mem_world mem_empty) in
  String.length accented_message = 55 /\
  response !! "database" = Some (VStr ("⚠️  Connected but Error: " ++ accented_message)) /\
  response !! "connection_status" = Some (VStr "Connected").
Proof.
  intros response.
  destruct (test_database_listing_error mem_store (fun _ => None)
              (fun _ : mem_store => inr accented_message) (mem_world mem_empty)
              mem_empty accented_message eq_refl eq_refl)
    as (quoted & H1 & _ & _ & Hall & _ & H2 & _).
  rewrite Hall in H1 by (vm_compute; lia).
  split; [reflexivity|]. split; [exact H1 | exact H2].
Defined.

(** X17: when [list_collection_names] returns, the diagnostic reports the
    store as connected and working and lists the first ten names, all of
    them when there are no more than ten. *)
Theorem test_database_connected
    (S : Type) (getenv : string -> option string)
    (list_collection_names : S -> list string + string)
    (w : world S) (s : S) (names : list string) :
  db w = Some s -> list_collection_names s = inl names ->
  let response := test_database getenv list_collection_names w in
  response !! "database" = Some (VStr "✅ Connected & Working") /\
  response !! "connection_status" = Some (VStr "Connected") /\
  response !! "collections" = Some (VList (take 10 names)) /\
  (length names <= 10 -> response !! "collections" = Some (VList names)).
Proof.
  intros Hdb Hl response.
  destruct (test_database_working getenv list_collection_names w s names Hdb Hl)
    as (H1 & H2 & H3).
  split_and!; try done.
  intros Hlen. unfold response. rewrite H3. by rewrite take_ge.
Qed.

Lemma test_database_connected_witness :
  let response :=
    test_database (fun _ => None) (fun _ : mem_store => inl ["projects"; "contacts"])
      (mem_world mem_empty) in
  response !! "collections" = Some (VList ["projects"; "contacts"]).
Proof.
  intros response.
  apply (test_database_connected mem_store (fun _ => None)
           (fun _ : mem_store => inl ["projects"; "contacts"]) (mem_world mem_empty)
           mem_empty ["projects"; "contacts"] eq_refl eq_refl).
  simpl. lia.
Defined.

(** X18: with a store, a configuration variable is reported as set exactly
    when it is set to a non-empty string: a variable set to the empty string
    is reported as not set, like one that is absent. *)
Theorem test_database_env_truthiness
    (S : Type) (getenv : string -> option string)
    (list_collection_names : S -> list string + string)
    (w : world S) (s : S) :
  db w = Some s ->
  let response := test_database getenv list_collection_names w in
  (response !! "database_url" = Some (VStr "✅ Set") <->
     exists c v, getenv "DATABASE_URL" = Some (String c v)) /\
  (response !! "database_name" = Some (VStr "✅ Set") <->
     exists c v, getenv "DATABASE_NAME" = Some (String c v)) /\
  (getenv "DATABASE_URL" = Some "" \/ getenv "DATABASE_URL" = None ->
     response !! "database_url" = Some (VStr "❌ Not Set")).
Proof.
  intros Hdb response.
  destruct (test_database_env getenv list_collection_names w s Hdb) as [Hu Hn].
  unfold response. rewrite Hu, Hn. unfold env_truthy.
  split_and!.
  - destruct (getenv "DATABASE_URL") as [[|c v]|]; split;
      try done; try (intros (? & ? & [=])); eauto.
  - destruct (getenv "DATABASE_NAME") as [[|c v]|]; split;
      try done; try (intros (? & ? & [=])); eauto.
  - by intros [-> | ->].
Qed.

Lemma test_database_env_truthiness_witness :
  let response :=
    test_database (fun _ => Some "") (fun _ : mem_store => inl []) (mem_world mem_empty) in
  response !! "database_url" = Some (VStr "❌ Not Set").
Proof.
  intros response.
  apply (test_database_env_truthiness mem_store (fun _ => Some "")
           (fun _ : mem_store => inl []) (mem_world mem_empty) mem_empty eq_refl).
  by left.
Defined.
